(** * A model of [dependency_scanner.py]

    Shallow embedding of the scanning core of the dependency scanner:
    the package classifier ([is_external_package], [get_package_name]),
    the import extractor ([scan_imports]), the directory walker
    ([scan_directory] over a model of [os.walk]), the manifest writer
    ([create_requirements_file]) and the start of [main].

    Python sets of strings are [gset string], the JSON package mapping is a
    [gmap string string].  Strings are Rocq strings; paths are POSIX paths
    with separator ["/"].  What the code takes from its environment (the
    installed-distribution registry, the bytes of a file, [chardet], the
    decoder together with [ast.parse]) is a parameter of the model. *)

From Stdlib Require Import Ascii String List.
From stdpp Require Import base gmap sets list strings sorting.
Import ListNotations.

Local Open Scope string_scope.

(* ------------------------------------------------------------------ *)
(** ** Python string operations used by the scanner *)

Module PyStr.

(** [s.split(c)] for a one-character separator [c]: never empty, and an
    empty field is kept around every separator. *)
Fixpoint split_on (c : ascii) (s : string) : list string :=
  match s with
  | EmptyString => [EmptyString]
  | String a s' =>
      let r := split_on c s' in
      if Ascii.eqb a c then EmptyString :: r
      else match r with
           | x :: r' => String a x :: r'
           | [] => [String a EmptyString]
           end
  end.

(** [s.split('.')[0]] *)
Definition first_segment (s : string) : string :=
  hd EmptyString (split_on "." s).

Fixpoint starts_with (p s : string) : bool :=
  match p, s with
  | EmptyString, _ => true
  | String a p', String b s' => Ascii.eqb a b && starts_with p' s'
  | String _ _, EmptyString => false
  end.

(** [s.endswith(p)] *)
Definition ends_with (p s : string) : bool :=
  starts_with (String.rev_app p EmptyString) (String.rev_app s EmptyString).

(** [posixpath.join(a, b)] for two components. *)
Definition path_join (a b : string) : string :=
  if starts_with "/" b then b
  else if String.eqb a "" || ends_with "/" a then a ++ b
  else a ++ "/" ++ b.

(** The characters [str.isspace()] accepts in the ASCII range. *)
Definition is_py_space (c : ascii) : bool :=
  let n := nat_of_ascii c in
  (Nat.eqb n 32) || ((9 <=? n) && (n <=? 13))%nat || ((28 <=? n) && (n <=? 31))%nat.

Fixpoint lstrip (s : string) : string :=
  match s with
  | String c s' => if is_py_space c then lstrip s' else s
  | EmptyString => EmptyString
  end.

(** [s.strip()] *)
Definition strip (s : string) : string :=
  String.rev_app (lstrip (String.rev_app (lstrip s) EmptyString)) EmptyString.

End PyStr.

Import PyStr.

(* ------------------------------------------------------------------ *)
(** ** The package classifier *)

(** [stdlib_modules] of [is_external_package]. *)
Definition stdlib_modules : gset string :=
  list_to_set
    ["os"; "sys"; "datetime"; "math"; "random"; "time"; "json";
     "csv"; "re"; "collections"; "itertools"; "functools"; "typing";
     "pathlib"; "logging"; "argparse"; "unittest"; "warnings"].

(** [common_external] of [is_external_package]. *)
Definition common_external : gset string :=
  list_to_set
    ["cv2"; "mediapipe"; "tensorflow"; "torch"; "pandas"; "numpy";
     "scipy"; "matplotlib"; "seaborn"; "sklearn"; "PIL"].

Section Scanner.

(** [PACKAGE_MAPPING], loaded once from [package_mapping.json] (a JSON
    object from module names to package names). *)
Variable PACKAGE_MAPPING : gmap string string.

(** How [importlib.metadata.distribution(name)] ends. *)
Inductive dist_lookup :=
| DistFound      (* it returns a distribution *)
| DistNotFound   (* it raises [PackageNotFoundError] *)
| DistRaised.    (* it raises another exception, e.g. [ValueError] for the
                    name [''] from Python 3.12 on *)

Variable distribution : string -> dist_lookup.

(** [is_external_package]: [Some b] when it returns [b], [None] when an
    exception other than [PackageNotFoundError] escapes from
    [distribution] (neither [except] clause catches it). *)
Definition is_external_package (module_name : string) : option bool :=
  if decide (module_name ∈ stdlib_modules) then Some false
  else
    match PACKAGE_MAPPING !! module_name with
    | Some pkg =>
        match distribution pkg with
        | DistFound => Some true     (* "Found ... in package mapping as ..." *)
        | DistNotFound => Some true  (* "Note: ... is in mapping but ... is not
                                        installed"; True all the same *)
        | DistRaised => None
        end
    | None =>
        match distribution module_name with
        | DistFound => Some true     (* "Found ... as installed package" *)
        | DistNotFound =>
            if decide (module_name ∈ common_external) then Some true
            else Some false
        | DistRaised => None
        end
    end.

Definition get_package_name (module_name : string) : string :=
  default module_name (PACKAGE_MAPPING !! module_name).

(** What the extractor does with a module name: [Some (Some n)] adds the
    installable name [n], [Some None] adds nothing ("not identified as
    external package"), [None] is an exception from the classifier. *)
Definition classify (module_name : string) : option (option string) :=
  match is_external_package module_name with
  | Some true => Some (Some (get_package_name module_name))
  | Some false => Some None
  | None => None
  end.

(** The decision order of the specification (section 4.4), written as an
    ordered list of rules; a rule answers [None] when it does not apply,
    [Some None] for "not external" and [Some (Some n)] for "external with
    installable name n". *)
Definition spec_rule := string -> option (option string).

Definition rule_stdlib : spec_rule := fun m =>
  if decide (m ∈ stdlib_modules) then Some None else None.
Definition rule_mapping : spec_rule := fun m =>
  match PACKAGE_MAPPING !! m with Some v => Some (Some v) | None => None end.
Definition rule_installed : spec_rule := fun m =>
  match distribution m with DistFound => Some (Some m) | _ => None end.
Definition rule_common : spec_rule := fun m =>
  if decide (m ∈ common_external) then Some (Some m) else None.
Definition rule_default : spec_rule := fun _ => Some None.

Fixpoint first_match (rules : list spec_rule) (m : string) : option string :=
  match rules with
  | [] => None
  | r :: rs => match r m with Some res => res | None => first_match rs m end
  end.

Definition spec_classify (m : string) : option string :=
  first_match [rule_stdlib; rule_mapping; rule_installed; rule_common;
               rule_default] m.

(* ------------------------------------------------------------------ *)
(** ** The import extractor *)

(** The nodes [ast.walk] yields, as far as the extractor looks at them:
    [ast.Import] with the [name] of each alias, [ast.ImportFrom] with its
    [module] (possibly [None]) and [level], and any other node. *)
Inductive node :=
| Import (names : list string)
| ImportFrom (module : option string) (level : nat)
| OtherNode.

(** How the [try] body of the node loop ends, with the contents of the
    mutable [imports] set at that point. *)
Inductive node_result :=
| NodeDone (imports : gset string)
| NodeRaised (imports : gset string).

(** [if is_external_package(m): imports.add(get_package_name(m))]:
    [None] when the classifier raises, the set left as it was. *)
Definition add_if_external (module_name : string) (imports : gset string)
  : option (gset string) :=
  match is_external_package module_name with
  | Some true => Some ({[ get_package_name module_name ]} ∪ imports)
  | Some false => Some imports
  | None => None
  end.

(** [for alias in node.names: ...]: an exception ends the loop, keeping what
    the earlier aliases added. *)
Fixpoint import_aliases (names : list string) (imports : gset string)
  : node_result :=
  match names with
  | [] => NodeDone imports
  | alias_name :: rest =>
      match add_if_external (first_segment alias_name) imports with
      | Some imports' => import_aliases rest imports'
      | None => NodeRaised imports
      end
  end.

Definition process_node (n : node) (imports : gset string) : node_result :=
  match n with
  | Import names => import_aliases names imports
  | ImportFrom module level =>
      if Nat.eqb level 0 then
        match module with
        | Some x =>
            match add_if_external (first_segment x) imports with
            | Some imports' => NodeDone imports'
            | None => NodeRaised imports
            end
        | None => NodeRaised imports (* None.split: AttributeError *)
        end
      else NodeDone imports
  | OtherNode => NodeDone imports
  end.

(** [for node in ast.walk(tree): try ... except Exception: continue] *)
Definition walk_nodes (nodes : list node) (imports : gset string)
  : gset string :=
  fold_left (fun acc n =>
               match process_node n acc with
               | NodeDone s => s
               | NodeRaised s => s
               end) nodes imports.

(** [open(path, 'rb').read()]: [None] when it raises. *)
Variable read_bytes : string -> option (list Byte.byte).
(** [chardet.detect(raw)['encoding']] *)
Variable detect : list Byte.byte -> option string.
(** [ast.walk(ast.parse(open(path, 'r', encoding=enc).read()))]: the nodes
    of the tree, or [None] when opening, decoding or parsing raises. *)
Variable read_parse : string -> string -> option (list node).

(** [encoding = detected['encoding']; if not encoding: encoding = 'utf-8'] *)
Definition file_encoding (raw : list Byte.byte) : string :=
  match detect raw with
  | Some e => if String.eqb e "" then "utf-8" else e
  | None => "utf-8"
  end.

Definition scan_imports (file_path : string) : gset string :=
  match read_bytes file_path with
  | None => ∅                                  (* "Error reading file" *)
  | Some raw =>
      match read_parse file_path (file_encoding raw) with
      | None => ∅                         (* "Error parsing Python syntax" *)
      | Some tree => walk_nodes tree ∅
      end
  end.

(* ------------------------------------------------------------------ *)
(** ** The directory walker *)

(** A directory tree: files and subdirectories, in listing order. *)
#[warnings="-register-all"]
Inductive fs_entry :=
| FsFile (name : string)
| FsDir (name : string) (children : list fs_entry).

Definition file_names (cs : list fs_entry) : list string :=
  omap (fun e => match e with FsFile n => Some n | FsDir _ _ => None end) cs.

(** The [(root, files)] pairs [os.walk] yields for the entry [e] of the
    directory [top] and everything below it, top-down. *)
Fixpoint walk_entry (top : string) (e : fs_entry)
  : list (string * list string) :=
  match e with
  | FsFile _ => []
  | FsDir n cs' =>
      let p := path_join top n in
      (p, file_names cs') :: flat_map (walk_entry p) cs'
  end.

(** [os.walk(directory)] on a directory whose entries are [cs]. *)
Definition os_walk (directory : string) (cs : list fs_entry)
  : list (string * list string) :=
  (directory, file_names cs) :: flat_map (walk_entry directory) cs.

(** [if '.venv' in root.split(os.path.sep): continue] *)
Definition skipped_root (root : string) : bool :=
  existsb (String.eqb ".venv") (split_on "/" root).

Definition scan_root (all_imports : gset string)
  (rf : string * list string) : gset string :=
  let '(root, files) := rf in
  if skipped_root root then all_imports
  else fold_left (fun acc file =>
                    if ends_with ".py" file
                    then acc ∪ scan_imports (path_join root file)
                    else acc) files all_imports.

Definition scan_directory (directory : string) (cs : list fs_entry)
  : gset string :=
  fold_left scan_root (os_walk directory cs) ∅.

(** The paths [scan_directory] hands to [scan_imports], in order. *)
Definition scanned_files (directory : string) (cs : list fs_entry)
  : list string :=
  flat_map (fun '(root, files) =>
              if skipped_root root then []
              else map (path_join root) (filter (fun f => ends_with ".py" f = true) files))
           (os_walk directory cs).

(* ------------------------------------------------------------------ *)
(** ** The manifest writer *)

(** [sorted(imports)]: the lines of [requirements.txt]. *)
Definition requirements_lines (imports : gset string) : list string :=
  merge_sort String.le (elements imports).

(** The text [create_requirements_file] writes. *)
Definition requirements_text (imports : gset string) : string :=
  String.concat "" (map (fun imp => imp ++ String "010" EmptyString)
                        (requirements_lines imports)).

(* ------------------------------------------------------------------ *)
(** ** [main] *)

(** [os.path.isdir], [os.path.abspath] and [os.getcwd()]. *)
Variable isdir : string -> bool.
Variable abspath : string -> string.
Variable cwd : string.

(** What the run does, in order.  [EPrompt] is one call of [input()], which
    reads one line of the standard input, [EScan d] the call
    [scan_directory(d)] with what it prints, [EWrite p t] writing [t] to [p], [ERun cmd] the call
    [subprocess.run(cmd, check=True)], [EExit c] [sys.exit(c)] and [ECrash]
    an uncaught exception (exit status 1).  A run that ends without
    [EExit] or [ECrash] ends with status 0. *)
Inductive event :=
| EPrint (msg : string)
| EPrompt
| EScan (dir : string)
| EWrite (path content : string)
| ERun (cmd : list string)
| EExit (code : nat)
| ECrash.

Definition is_prompt (e : event) : bool :=
  match e with EPrompt => true | _ => false end.

(** [get_directory_input()] reading the lines [stdin]; [input()] raises
    [EOFError] once they are exhausted. *)
Fixpoint get_directory_input (stdin : list string)
  : list event * option string :=
  match stdin with
  | [] => ([EPrompt; ECrash], None)
  | line :: rest =>
      let directory := strip line in
      if String.eqb directory "" then ([EPrompt], Some cwd)
      else if isdir directory then ([EPrompt], Some (abspath directory))
      else
        let '(evs, r) := get_directory_input rest in
        (EPrompt :: EPrint ("Error: '" ++ directory ++
                            "' is not a valid directory. Please try again.")
                 :: evs, r)
  end.

(** The part of [main] that fixes [project_dir]; [input_dir] is
    [args.input_dir]. *)
Definition choose_project_dir (input_dir : option string) (stdin : list string)
  : list event * option string :=
  match input_dir with
  | Some d =>
      if negb (String.eqb d "") then
        let project_dir := abspath d in
        if isdir project_dir then ([], Some project_dir)
        else ([EPrint ("Error: Directory '" ++ project_dir ++
                       "' does not exist."); EExit 1], None)
      else get_directory_input stdin
  | None => get_directory_input stdin
  end.

End Scanner.

(* ------------------------------------------------------------------ *)
(** ** More Python string operations: for the environment steps *)

Module PyText.

(** ["\n"] *)
Definition nl : string := String "010" EmptyString.

(** [posixpath.basename(p)]: what follows the last ["/"]. *)
Definition basename (p : string) : string := List.last (split_on "/" p) "".

(** [str.lower()] on ASCII letters. *)
Definition lower_char (c : ascii) : ascii :=
  let n := nat_of_ascii c in
  if ((65 <=? n) && (n <=? 90))%nat then ascii_of_nat (n + 32) else c.

Fixpoint lower (s : string) : string :=
  match s with
  | EmptyString => EmptyString
  | String c s' => String (lower_char c) (lower s')
  end.

(** The ASCII characters [str.splitlines()] breaks at: [\n], [\r],
    [\x0b], [\x0c], [\x1c], [\x1d], [\x1e]. *)
Definition is_line_break (c : ascii) : bool :=
  let n := nat_of_ascii c in
  (Nat.eqb n 10) || (Nat.eqb n 13) || (Nat.eqb n 11) || (Nat.eqb n 12)
  || ((28 <=? n) && (n <=? 30))%nat.

(** [s.splitlines()]: [\r\n] is one break, and no empty last line is
    produced after a final break. *)
Fixpoint splitlines (s : string) : list string :=
  match s with
  | EmptyString => []
  | String c s' =>
      if Ascii.eqb c "013" then
        match s' with
        | String d s'' => if Ascii.eqb d "010" then "" :: splitlines s''
                          else "" :: splitlines s'
        | EmptyString => [""]
        end
      else if is_line_break c then "" :: splitlines s'
      else match splitlines s' with
           | [] => [String c EmptyString]
           | x :: r => String c x :: r
           end
  end.

End PyText.

Import PyText.

(* ------------------------------------------------------------------ *)
(** A value, or an exception left uncaught. *)
Inductive py_result (A : Type) :=
| PyOk (a : A)
| PyRaise (exn : string).
Arguments PyOk {A} a.
Arguments PyRaise {A} exn.

(* ------------------------------------------------------------------ *)
(** ** The environment steps of [main] (on POSIX, [os.name] not ['nt']) *)

Section Provision.

(** [os.path.isdir] *)
Variable isdir : string -> bool.

(** How [subprocess.run(cmd, check=True)] ends. *)
Inductive run_status :=
| RunOk
| RunFailed       (* non-zero exit: CalledProcessError *)
| RunNotStarted.  (* the program cannot be run: OSError *)

Variable run : list string -> run_status.
Variable sys_executable : string.
(** [open(path, 'r').read()]: [None] when it raises. *)
Variable read_text : string -> option string.
(** The line [input()] returns; [None]: [EOFError]. *)
Variable answer : option string.

Inductive penv_event :=
| PPrint (msg : string)
| PRun (cmd : list string)
| PPrompt.

Definition run_result (cmd : list string) : py_result unit :=
  match run cmd with
  | RunOk => PyOk tt
  | RunFailed => PyRaise "CalledProcessError"
  | RunNotStarted => PyRaise "OSError"
  end.

Definition venv_names : list string := [".venv"; "venv"; "myenv"].

Fixpoint first_existing (directory : string) (names : list string)
  : option string :=
  match names with
  | [] => None
  | venv :: rest =>
      let venv_path := path_join directory venv in
      if isdir venv_path then Some venv_path
      else first_existing directory rest
  end.

Definition find_existing_venv (directory : string) : option string :=
  first_existing directory venv_names.

Definition venv_create_cmd (directory : string) : list string :=
  [sys_executable; "-m"; "venv"; path_join directory ".venv"].

Definition create_or_use_venv (directory : string)
  : list penv_event * py_result string :=
  match find_existing_venv directory with
  | Some existing_venv =>
      if negb (String.eqb existing_venv "") then
        ([PPrint ("Using existing virtual environment: " ++ existing_venv)],
         PyOk (basename existing_venv))
      else
        ([PPrint ("Creating new virtual environment: " ++ path_join directory ".venv");
          PRun (venv_create_cmd directory)],
         match run_result (venv_create_cmd directory) with
         | PyOk _ => PyOk ".venv" | PyRaise e => PyRaise e end)
  | None =>
      ([PPrint ("Creating new virtual environment: " ++ path_join directory ".venv");
        PRun (venv_create_cmd directory)],
       match run_result (venv_create_cmd directory) with
       | PyOk _ => PyOk ".venv" | PyRaise e => PyRaise e end)
  end.

Definition pip_upgrade_cmd (venv_dir : string) : list string :=
  [path_join (path_join venv_dir "bin") "python"; "-m"; "pip"; "install";
   "--upgrade"; "pip"].

Definition upgrade_pip (venv_dir : string) : list penv_event * py_result unit :=
  let cmd := pip_upgrade_cmd venv_dir in
  match run cmd with
  | RunOk => ([PPrint "Upgrading pip..."; PRun cmd], PyOk tt)
  | RunFailed =>
      ([PPrint "Upgrading pip..."; PRun cmd;
        PPrint "Failed to upgrade pip. Continuing with installation..."], PyOk tt)
  | RunNotStarted => ([PPrint "Upgrading pip..."; PRun cmd], PyRaise "OSError")
  end.

Definition pip_install_cmd (venv_dir requirements_file : string) : list string :=
  [path_join (path_join venv_dir "bin") "pip"; "install"; "-r"; requirements_file].

Definition install_requirements (venv_dir requirements_file : string)
  : list penv_event * py_result unit :=
  match read_text requirements_file with
  | None => ([], PyRaise "OSError")
  | Some content =>
      let modules := splitlines content in
      let listing :=
        PPrint (nl ++ "The following modules will be installed:")
          :: map (fun m => PPrint ("- " ++ m)) modules in
      match answer with
      | None => ((listing ++ [PPrompt])%list, PyRaise "EOFError")
      | Some user_input =>
          if String.eqb (lower user_input) "yes" then
            let cmd := pip_install_cmd venv_dir requirements_file in
            ((listing ++ [PPrompt;
                          PPrint (nl ++ "Installing dependencies in '" ++ venv_dir ++ "'...");
                          PRun cmd])%list,
             run_result cmd)
          else ((listing ++ [PPrompt; PPrint "Installation cancelled."])%list, PyOk tt)
      end
  end.

(** The rest of [main] once the manifest is written: [create_or_use_venv],
    [upgrade_pip], [install_requirements] and the closing lines. *)
Definition provision (project_dir requirements_file : string)
  : list penv_event * py_result unit :=
  let '(e1, r1) := create_or_use_venv project_dir in
  match r1 with
  | PyRaise e => (e1, PyRaise e)
  | PyOk venv_name =>
      let venv_path := path_join project_dir venv_name in
      let '(e2, r2) := upgrade_pip venv_path in
      match r2 with
      | PyRaise e => (e1 ++ e2, PyRaise e)%list
      | PyOk _ =>
          let '(e3, r3) := install_requirements venv_path requirements_file in
          match r3 with
          | PyRaise e => (e1 ++ e2 ++ e3, PyRaise e)%list
          | PyOk _ =>
              (e1 ++ e2 ++ e3 ++
                 [PPrint (nl ++ "Done! Your virtual environment is ready.");
                  PPrint ("Virtual environment location: " ++ venv_path);
                  PPrint ("Requirements file location: " ++ requirements_file)],
               PyOk tt)%list
          end
      end
  end.

End Provision.

(* ------------------------------------------------------------------ *)
(** ** [main] *)

Section Program.

Variable PACKAGE_MAPPING : gmap string string.
Variable distribution : string -> dist_lookup.
Variable read_bytes : string -> option (list Byte.byte).
Variable detect : list Byte.byte -> option string.
Variable read_parse : string -> string -> option (list node).
Variable isdir : string -> bool.
Variable abspath : string -> string.
Variable cwd : string.
(** The entries of the directory at a path. *)
Variable dir_entries : string -> list fs_entry.
(** Whether [open(path, 'w')] and the writes of [create_requirements_file]
    succeed at a path. *)
Variable write_ok : string -> bool.
Variable run : list string -> run_status.
Variable sys_executable : string.

Definition env_event (e : penv_event) : event :=
  match e with
  | PPrint msg => EPrint msg
  | PRun cmd => ERun cmd
  | PPrompt => EPrompt
  end.

(** [main()] reading the lines [stdin]: every [input()] takes the next
    line, so the answer to the installation prompt is the first line the
    directory prompt left unread.  [install_requirements] reads back the
    file [create_requirements_file] has just written. *)
Definition main (input_dir : option string) (stdin : list string)
  : list event :=
  let '(evs, r) := choose_project_dir isdir abspath cwd input_dir stdin in
  match r with
  | None => evs
  | Some project_dir =>
      let stdin' := drop (length (filter (fun e => is_prompt e = true) evs)) stdin in
      let imports := scan_directory PACKAGE_MAPPING distribution read_bytes detect
                       read_parse project_dir (dir_entries project_dir) in
      evs ++ EPrint (nl ++ "Scanning directory: " ++ project_dir)
          :: EPrint (nl ++ "Scanning for imports...")
          :: EScan project_dir
          :: (if decide (imports = ∅)
              then [EPrint (nl ++ "No external package imports found."); EExit 0]
              else
                let requirements_file := path_join project_dir "requirements.txt" in
                let content := requirements_text imports in
                let read_back := fun p => if String.eqb p requirements_file
                                          then Some content else None in
                if write_ok requirements_file then
                  let '(penv, res) := provision isdir run sys_executable read_back
                                        (head stdin') project_dir requirements_file in
                  EPrint (nl ++ "Creating requirements.txt...")
                    :: EWrite requirements_file content
                    :: EPrint ("Requirements file created at: " ++ requirements_file)
                    :: map env_event penv
                    ++ match res with PyOk _ => [] | PyRaise _ => [ECrash] end
                else [EPrint (nl ++ "Creating requirements.txt..."); ECrash])
  end.

End Program.

(* ------------------------------------------------------------------ *)
(** ** A concrete project, for the witnesses *)

Module Fixture.

Definition mapping : gmap string string := {[ "cv2" := "opencv-python" ]}.

Definition distribution (name : string) : dist_lookup :=
  if String.eqb name "requests" then DistFound else DistNotFound.

Definition read_bytes (path : string) : option (list Byte.byte) :=
  if String.eqb path "/proj/locked.py" then None else Some [].

Definition detect (raw : list Byte.byte) : option string := None.

Definition read_parse (path encoding : string) : option (list node) :=
  if String.eqb path "/proj/a.py" then
    Some [Import ["numpy"; "os.path"]; ImportFrom None 1; OtherNode]
  else if String.eqb path "/proj/b.py" then
    Some [ImportFrom (Some "cv2.aruco") 0; Import ["os"]; ImportFrom (Some "a") 1]
  else if String.eqb path "/proj/s.py" then
    Some [Import ["json"; "os.path"]; ImportFrom (Some "collections.abc") 0]
  else if String.eqb path "/proj/venv/c.py" then Some [Import ["torch.nn"]]
  else if String.eqb path "/proj/.venv/d.py" then Some [Import ["requests"]]
  else if String.eqb path "/proj/pkg.py" then Some [Import ["numpy.linalg"; "sys"]]
  else None.

(** [bad.py] does not parse, [locked.py] cannot be read. *)
Definition tree : list fs_entry :=
  [FsFile "a.py"; FsFile "b.py"; FsFile "s.py"; FsFile "bad.py";
   FsFile "locked.py"; FsFile "notes.txt";
   FsDir "venv" [FsFile "c.py"]; FsDir ".venv" [FsFile "d.py"]].

Definition tree_relisted : list fs_entry :=
  [FsFile "b.py"; FsFile "a.py"; FsFile "s.py"; FsFile "bad.py";
   FsFile "locked.py"; FsFile "notes.txt";
   FsDir "venv" [FsFile "c.py"]; FsDir ".venv" [FsFile "d.py"]].

Definition pkg_tree : list fs_entry := [FsFile "pkg.py"; FsFile "a.py"].

(** A mapping whose value is the empty name, and a registry on which
    [distribution('')] raises [ValueError]. *)
Definition empty_value_mapping : gmap string string := {[ "cv2" := "" ]}.

Definition raising_distribution (name : string) : dist_lookup :=
  if String.eqb name "" then DistRaised else DistNotFound.

End Fixture.

(* ------------------------------------------------------------------ *)
(** ** Auxiliary notions for the statements *)

(** The module names a node hands to the classifier (before taking the
    first dotted segment): every alias of an [import], the module of an
    absolute [from ... import]. *)
Definition node_module_names (n : node) : list string :=
  match n with
  | Import names => names
  | ImportFrom (Some x) 0 => [x]
  | _ => []
  end.

Definition node_result_set (r : node_result) : gset string :=
  match r with NodeDone s => s | NodeRaised s => s end.

(** The module names of a node the classifier gets through, in order: all
    of them, or those before the first one it raises on. *)
Fixpoint names_until_raise (M : gmap string string) (distribution : string -> dist_lookup)
  (names : list string) : list string :=
  match names with
  | [] => []
  | name :: rest =>
      match classify M distribution (first_segment name) with
      | Some _ => name :: names_until_raise M distribution rest
      | None => []
      end
  end.

Definition node_reached_names (M : gmap string string) (distribution : string -> dist_lookup)
  (n : node) : list string :=
  names_until_raise M distribution (node_module_names n).

(** The installable name the extractor adds for a module name, if any. *)
Definition added (M : gmap string string) (distribution : string -> dist_lookup)
  (name : string) : option string :=
  match classify M distribution (first_segment name) with
  | Some (Some pkg) => Some pkg
  | _ => None
  end.

(** The classifier raises on [m]: [m] is not a standard-library name and
    the lookup it makes, of the mapped value for a mapping key and of [m]
    otherwise, raises an exception other than [PackageNotFoundError]. *)
Definition lookup_raises (M : gmap string string) (distribution : string -> dist_lookup)
  (m : string) : bool :=
  negb (bool_decide (m ∈ stdlib_modules)) &&
  match distribution (get_package_name M m) with DistRaised => true | _ => false end.

(** The names of the files a scan reads and parses, with the module names
    of their syntax trees the classifier gets through. *)
Definition file_reached_names (M : gmap string string) (distribution : string -> dist_lookup)
  (read_bytes : string -> option (list Byte.byte))
  (detect : list Byte.byte -> option string)
  (read_parse : string -> string -> option (list node)) (p : string) : list string :=
  match read_bytes p with
  | Some raw =>
      match read_parse p (file_encoding detect raw) with
      | Some tree => flat_map (node_reached_names M distribution) tree
      | None => []
      end
  | None => []
  end.

Definition is_relative_from (n : node) : bool :=
  match n with ImportFrom _ level => (1 <=? level)%nat | _ => false end.

(** The file was read and parsed: the case where [scan_imports] walks a
    syntax tree. *)
Definition parsed_ok (M : gmap string string) (read_bytes : string -> option (list Byte.byte))
  (detect : list Byte.byte -> option string)
  (read_parse : string -> string -> option (list node)) (p : string) : bool :=
  match read_bytes p with
  | Some raw => bool_decide (is_Some (read_parse p (file_encoding detect raw)))
  | None => false
  end.

(** Two listings of the same directory tree that differ only in the order
    in which the entries of directories are listed (the order [os.walk]
    meets them in). *)
Inductive fs_equiv : list fs_entry -> list fs_entry -> Prop :=
| fs_equiv_perm (cs1 cs2 : list fs_entry) :
    cs1 ≡ₚ cs2 -> fs_equiv cs1 cs2
| fs_equiv_sub (pre post c1 c2 : list fs_entry) (n : string) :
    fs_equiv c1 c2 ->
    fs_equiv (pre ++ FsDir n c1 :: post)%list (pre ++ FsDir n c2 :: post)%list
| fs_equiv_trans (cs1 cs2 cs3 : list fs_entry) :
    fs_equiv cs1 cs2 -> fs_equiv cs2 cs3 -> fs_equiv cs1 cs3.

Fixpoint has_char (c : ascii) (s : string) : bool :=
  match s with
  | EmptyString => false
  | String a s' => Ascii.eqb a c || has_char c s'
  end.

(** Names of directory entries never contain the separator ["/"]. *)
Fixpoint entry_names_ok (e : fs_entry) : bool :=
  match e with
  | FsFile n => negb (has_char "/" n)
  | FsDir n cs => negb (has_char "/" n) && forallb entry_names_ok cs
  end.

Definition names_ok (cs : list fs_entry) : bool := forallb entry_names_ok cs.

(** Induction over directory trees, with the hypothesis for every entry of a
    directory. *)
Fixpoint fs_entry_rect' (P : fs_entry -> Prop)
  (Hfile : forall n, P (FsFile n))
  (Hdir : forall n cs, Forall P cs -> P (FsDir n cs)) (e : fs_entry) : P e :=
  match e with
  | FsFile n => Hfile n
  | FsDir n cs =>
      Hdir n cs ((fix go (cs : list fs_entry) : Forall P cs :=
                    match cs with
                    | [] => @List.Forall_nil fs_entry P
                    | e' :: r => @List.Forall_cons fs_entry P e' r (fs_entry_rect' P Hfile Hdir e') (go r)
                    end) cs)
  end.

(** A name holds none of the characters [str.splitlines()] breaks at. *)
Fixpoint no_line_break (s : string) : bool :=
  match s with
  | EmptyString => true
  | String c s' => negb (is_line_break c) && no_line_break s'
  end.

(** The commands a run of the environment steps hands to [subprocess.run]. *)
Definition runs (evs : list penv_event) : list (list string) :=
  omap (fun e => match e with PRun c => Some c | _ => None end) evs.

(** [install_requirements] gets past its prompt: the file is read and the
    answer, lowercased, is ['yes']. *)
Definition install_confirmed (read_text : string -> option string)
  (answer : option string) (requirements_file : string) : bool :=
  match read_text requirements_file, answer with
  | Some _, Some a => String.eqb (lower a) "yes"
  | _, _ => false
  end.

(** The path of the environment [main] works in. *)
Definition venv_path_of (isdir : string -> bool) (directory : string) : string :=
  default (path_join directory ".venv") (find_existing_venv isdir directory).

(** A line typed at the directory prompt that is neither blank nor a
    directory. *)
Definition line_rejected (isdir : string -> bool) (line : string) : bool :=
  negb (String.eqb (strip line) "") && negb (isdir (strip line)).

(** Events of the part of [main] before the scan. *)
Definition pre_scan (e : event) : bool :=
  match e with
  | EPrint _ | EPrompt | ECrash => true
  | EExit c => Nat.eqb c 1
  | _ => false
  end.

Definition is_pprompt (e : penv_event) : bool :=
  match e with PPrompt => true | _ => false end.

Definition is_write (e : event) : bool :=
  match e with EWrite _ _ => true | _ => false end.

(** Events of the environment steps. *)
Definition env_like (e : event) : bool :=
  match e with EPrint _ | EPrompt | ERun _ => true | _ => false end.

Definition prompt_or_print (e : event) : bool :=
  match e with EPrint _ | EPrompt => true | _ => false end.

(* ------------------------------------------------------------------ *)
(** ** Facts about the string operations *)

Lemma split_on_not_nil (c : ascii) (s : string) : split_on c s <> [].
Proof.
  induction s as [|a s IH]; simpl; [done|].
  destruct (Ascii.eqb a c); [done|]. destruct (split_on c s); done.
Qed.

(** [String.append] does not unfold under [simpl]; its two equations. *)
Lemma str_app_nil (t : string) : "" ++ t = t.
Proof. reflexivity. Qed.

Lemma str_app_cons (a : ascii) (s t : string) : String a s ++ t = String a (s ++ t).
Proof. reflexivity. Qed.

Lemma split_on_sep_app (c : ascii) (s t : string) :
  split_on c (s ++ String c t) = (split_on c s ++ split_on c t)%list.
Proof.
  induction s as [|a s IH].
  - rewrite str_app_nil. simpl. rewrite Ascii.eqb_refl. done.
  - rewrite str_app_cons. simpl. rewrite IH. destruct (Ascii.eqb a c); [done|].
    destruct (split_on c s) as [|x r] eqn:E; [by destruct (split_on_not_nil c s)|].
    done.
Qed.

Lemma split_on_no_sep (c : ascii) (s : string) :
  has_char c s = false -> split_on c s = [s].
Proof.
  induction s as [|a s IH]; simpl; [done|].
  intros H. apply orb_false_iff in H as [Ha Hs].
  rewrite Ha, IH by done. done.
Qed.

Lemma str_app_assoc (s t u : string) : s ++ (t ++ u) = (s ++ t) ++ u.
Proof.
  induction s as [|a s IH]; [done|]. rewrite !str_app_cons, IH. done.
Qed.

Lemma str_app_nil_r (s : string) : s ++ "" = s.
Proof. induction s as [|a s IH]; [done|]. rewrite str_app_cons, IH. done. Qed.

Lemma rev_app_acc (s acc : string) :
  String.rev_app s acc = String.rev_app s "" ++ acc.
Proof.
  revert acc. induction s as [|a s IH]; intros acc; simpl; [done|].
  rewrite IH, (IH (String a "")). rewrite <-str_app_assoc. done.
Qed.

Lemma rev_app_app (s t : string) :
  String.rev_app (s ++ t) "" = String.rev_app t "" ++ String.rev_app s "".
Proof.
  induction s as [|a s IH].
  - rewrite str_app_nil, str_app_nil_r. done.
  - rewrite str_app_cons. simpl.
    rewrite (rev_app_acc (s ++ t)), (rev_app_acc s (String a "")), IH, str_app_assoc. done.
Qed.

Lemma rev_app_involutive (s : string) :
  String.rev_app (String.rev_app s "") "" = s.
Proof.
  induction s as [|a s IH]; simpl; [done|].
  rewrite (rev_app_acc s (String a "")), rev_app_app, IH. done.
Qed.

Lemma starts_with_spec (p s : string) :
  starts_with p s = true -> exists t, s = p ++ t.
Proof.
  revert s. induction p as [|a p IH]; intros s H; simpl; [eauto|].
  destruct s as [|b s]; [done|]. simpl in H.
  apply andb_true_iff in H as [Hab Hps].
  apply Ascii.eqb_eq in Hab as ->. destruct (IH s Hps) as [t ->]. eauto.
Qed.

Lemma ends_with_spec (p s : string) :
  ends_with p s = true -> exists t, s = t ++ p.
Proof.
  unfold ends_with. intros H.
  destruct (starts_with_spec _ _ H) as [t Ht].
  exists (String.rev_app t "").
  rewrite <-(rev_app_involutive s), Ht, rev_app_app, rev_app_involutive. done.
Qed.

(* ------------------------------------------------------------------ *)
(** ** Properties of the extractor and the walker *)

Definition scan_here (rf : string * list string) : list string :=
  let '(root, files) := rf in
  if skipped_root root then []
  else map (path_join root) (filter (fun f => ends_with ".py" f = true) files).

Lemma scanned_files_unfold (directory : string) (cs : list fs_entry) :
  scanned_files directory cs
  = (scan_here (directory, file_names cs)
     ++ flat_map (fun e => flat_map scan_here (walk_entry directory e)) cs)%list.
Proof.
  unfold scanned_files, os_walk. cbn [flat_map]. f_equal.
  induction cs as [|e cs IH]; [done|].
  cbn [flat_map]. rewrite flat_map_app, IH. done.
Qed.

Lemma walk_entry_dir (directory n : string) (cs : list fs_entry) :
  flat_map scan_here (walk_entry directory (FsDir n cs))
  = scanned_files (path_join directory n) cs.
Proof. done. Qed.

Lemma file_names_app (l1 l2 : list fs_entry) :
  file_names (l1 ++ l2) = (file_names l1 ++ file_names l2)%list.
Proof. apply omap_app. Qed.

(** Reordering directory listings reorders the files the walker scans. *)
Lemma scanned_files_fs_equiv (cs1 cs2 : list fs_entry) :
  fs_equiv cs1 cs2 ->
  forall directory : string,
    scanned_files directory cs1 ≡ₚ scanned_files directory cs2.
Proof.
  induction 1 as [cs1 cs2 Hp | pre post c1 c2 n H IH | cs1 cs2 cs3 _ IH1 _ IH2];
    intros directory; rewrite ?scanned_files_unfold.
  - apply Permutation_app.
    + unfold scan_here, file_names.
      destruct (skipped_root directory); [done|].
      apply Permutation_map, filter_Permutation. rewrite Hp. done.
    + apply Permutation_flat_map. done.
  - rewrite !file_names_app. cbn [file_names omap].
    rewrite !flat_map_app. cbn [flat_map]. rewrite !walk_entry_dir.
    apply Permutation_app_head, Permutation_app_head, Permutation_app_tail.
    apply IH.
  - rewrite <-!scanned_files_unfold, IH1. apply IH2.
Qed.

Lemma file_names_ok (cs : list fs_entry) (f : string) :
  names_ok cs = true -> f ∈ file_names cs -> has_char "/" f = false.
Proof.
  unfold names_ok, file_names. intros Hok Hf.
  apply list_elem_of_omap in Hf as ([n|n cs'] & He & Hf); [|discriminate].
  injection Hf as ->.
  apply list_elem_of_In in He.
  eapply forallb_forall in Hok; [|exact He].
  simpl in Hok. apply negb_true_iff. done.
Qed.

Lemma walk_entry_ok (e : fs_entry) :
  entry_names_ok e = true ->
  forall (top root : string) (files : list string) (f : string),
    (root, files) ∈ walk_entry top e -> f ∈ files -> has_char "/" f = false.
Proof.
  induction e as [n | n cs IH] using fs_entry_rect';
    intros Hok top root files f Hin Hf; simpl in *.
  - by apply not_elem_of_nil in Hin.
  - apply andb_true_iff in Hok as [_ Hok].
    apply elem_of_cons in Hin as [Heq | Hin].
    + injection Heq as -> ->. by apply (file_names_ok cs).
    + apply list_elem_of_In, in_flat_map in Hin as (e & He & Hin).
      rewrite Forall_forall in IH.
      apply (IH e) with (top := path_join top n) (root := root) (files := files);
        try done; [by apply list_elem_of_In| |].
      * eapply forallb_forall in Hok; [exact Hok|exact He].
      * by apply list_elem_of_In.
Qed.

Lemma os_walk_ok (directory : string) (cs : list fs_entry) :
  names_ok cs = true ->
  forall (root : string) (files : list string) (f : string),
    (root, files) ∈ os_walk directory cs -> f ∈ files -> has_char "/" f = false.
Proof.
  intros Hok root files f Hin Hf. unfold os_walk in Hin.
  apply elem_of_cons in Hin as [Heq | Hin].
  - injection Heq as -> ->. by apply (file_names_ok cs).
  - apply list_elem_of_In, in_flat_map in Hin as (e & He & Hin).
    apply (walk_entry_ok e) with (top := directory) (root := root) (files := files); try done.
    + unfold names_ok in Hok. eapply forallb_forall in Hok; [exact Hok|exact He].
    + by apply list_elem_of_In.
Qed.

(** Joining a file name adds exactly one component, the name itself. *)
Lemma path_join_venv (root f : string) :
  has_char "/" f = false -> ends_with ".py" f = true ->
  ".venv" ∈ split_on "/" (path_join root f) -> ".venv" ∈ split_on "/" root.
Proof.
  intros Hslash Hpy Hin. unfold path_join in Hin.
  destruct (starts_with "/" f) eqn:Hs.
  { destruct f as [|a f]; [done|]. cbn [starts_with has_char] in Hs, Hslash.
    rewrite andb_true_r in Hs. apply Ascii.eqb_eq in Hs as <-.
    rewrite Ascii.eqb_refl in Hslash. discriminate. }
  assert (Hf : ".venv" <> f) by (intros <-; done).
  destruct (String.eqb root "") eqn:He; simpl in Hin.
  { apply String.eqb_eq in He as ->. rewrite str_app_nil in Hin.
    rewrite split_on_no_sep in Hin by done. set_solver. }
  destruct (ends_with "/" root) eqn:Hend.
  - destruct (ends_with_spec _ _ Hend) as [r ->].
    rewrite <-str_app_assoc in Hin. change ("/" ++ f) with (String "/" f) in Hin.
    change "/" with (String "/" "").
    rewrite split_on_sep_app in Hin |- *.
    rewrite (split_on_no_sep "/" f) in Hin by done. set_solver.
  - change ("/" ++ f) with (String "/" f) in Hin.
    rewrite split_on_sep_app, (split_on_no_sep "/" f) in Hin by done. set_solver.
Qed.

Lemma scanned_files_elem (directory : string) (cs : list fs_entry) (p : string) :
  p ∈ scanned_files directory cs <->
  exists root files f, (root, files) ∈ os_walk directory cs /\
    skipped_root root = false /\ f ∈ files /\ ends_with ".py" f = true /\
    p = path_join root f.
Proof.
  unfold scanned_files. rewrite list_elem_of_In, in_flat_map. split.
  - intros ([root files] & Hrf & Hp).
    destruct (skipped_root root) eqn:Hsk; [done|].
    apply list_elem_of_In, list_elem_of_fmap in Hp as (f & -> & Hf).
    apply list_elem_of_filter in Hf as [Hpy Hf].
    exists root, files, f. repeat split; try done. by apply list_elem_of_In.
  - intros (root & files & f & Hrf & Hsk & Hf & Hpy & ->).
    exists (root, files). split; [by apply list_elem_of_In|].
    rewrite Hsk. apply list_elem_of_In, list_elem_of_fmap.
    exists f. split; [done|]. by apply list_elem_of_filter.
Qed.

Section Properties.

Variable M : gmap string string.
Variable distribution : string -> dist_lookup.

Local Abbreviation cls name := (added M distribution name).

Lemma add_if_external_classify (m : string) (s : gset string) :
  add_if_external M distribution m s
  = match classify M distribution m with
    | Some (Some pkg) => Some ({[ pkg ]} ∪ s)
    | Some None => Some s
    | None => None
    end.
Proof.
  unfold add_if_external, classify.
  destruct (is_external_package M distribution m) as [[|]|]; done.
Qed.

Lemma omap_added_cons (name : string) (l : list string) :
  omap (fun name => cls name) (name :: l)
  = match cls name with
    | Some x => x :: omap (fun name => cls name) l
    | None => omap (fun name => cls name) l
    end.
Proof. done. Qed.

Lemma added_classify (name : string) :
  cls name = match classify M distribution (first_segment name) with
             | Some (Some pkg) => Some pkg
             | _ => None
             end.
Proof. done. Qed.

Lemma import_aliases_set (names : list string) (s : gset string) :
  node_result_set (import_aliases M distribution names s)
  = s ∪ list_to_set (omap (fun name => cls name) (names_until_raise M distribution names)).
Proof.
  revert s. induction names as [|a names IH]; intros s; cbn [import_aliases names_until_raise].
  - set_solver.
  - rewrite add_if_external_classify.
    destruct (classify M distribution (first_segment a)) as [[pkg|]|] eqn:E.
    + rewrite IH, omap_added_cons, added_classify, E. set_solver.
    + rewrite IH, omap_added_cons, added_classify, E. set_solver.
    + cbn. set_solver.
Qed.

Lemma process_node_set (n : node) (s : gset string) :
  node_result_set (process_node M distribution n s)
  = s ∪ list_to_set (omap (fun name => cls name) (node_reached_names M distribution n)).
Proof.
  unfold node_reached_names.
  destruct n as [names | [x|] [|lvl] | ]; cbn [process_node node_module_names Nat.eqb].
  - apply import_aliases_set.
  - rewrite add_if_external_classify. cbn [names_until_raise].
    destruct (classify M distribution (first_segment x)) as [[pkg|]|] eqn:E;
      rewrite ?omap_added_cons, ?added_classify, ?E; cbn; set_solver.
  - cbn. set_solver.
  - cbn. set_solver.
  - cbn. set_solver.
  - cbn. set_solver.
Qed.

(** The set the node loop builds is the classified first segments of the
    module names of all nodes the classifier gets through. *)
Lemma walk_nodes_eq (nodes : list node) (s : gset string) :
  walk_nodes M distribution nodes s
  = s ∪ list_to_set (omap (fun name => cls name)
                          (flat_map (node_reached_names M distribution) nodes)).
Proof.
  unfold walk_nodes. revert s.
  induction nodes as [|n nodes IH]; intros s; simpl.
  - set_solver.
  - rewrite IH.
    assert (Hn := process_node_set n s).
    destruct (process_node M distribution n s); simpl in Hn; rewrite Hn;
      rewrite omap_app, list_to_set_app_L; set_solver.
Qed.

Lemma names_until_raise_sub (l : list string) (name : string) :
  name ∈ names_until_raise M distribution l -> name ∈ l.
Proof.
  induction l as [|a l IH]; cbn [names_until_raise]; [done|].
  destruct (classify M distribution (first_segment a)); [|set_solver].
  rewrite !elem_of_cons. intuition.
Qed.

Lemma reached_names_origin (tree : list node) (name : string) :
  name ∈ flat_map (node_reached_names M distribution) tree ->
  exists n, n ∈ tree /\ name ∈ node_module_names n.
Proof.
  intros H. apply list_elem_of_In, in_flat_map in H as (n & Hn & Hname).
  exists n. split; [by apply list_elem_of_In|].
  apply (names_until_raise_sub _ name). by apply list_elem_of_In.
Qed.

Lemma added_some (name x : string) :
  cls name = Some x ->
  is_external_package M distribution (first_segment name) = Some true /\
  x = get_package_name M (first_segment name).
Proof.
  unfold added, classify.
  destruct (is_external_package M distribution (first_segment name)) as [[|]|];
    [intros [= <-]; done | discriminate | discriminate].
Qed.

Lemma requirements_lines_elem (X : gset string) (x : string) :
  x ∈ requirements_lines X <-> x ∈ X.
Proof.
  unfold requirements_lines.
  rewrite (merge_sort_Permutation String.le (elements X)).
  apply elem_of_elements.
Qed.

(* ------------------------------------------------------------------ *)
(** ** Claims about the classifier and the extractor *)


(** C3: a relative [from ... import] (level at least 1) leaves the set as it
    is, so a file's import set is the same with all its relative
    from-imports removed; an absolute one hands the first dotted segment of
    its module to the classifier. *)
Theorem relative_from_imports_contribute_nothing (nodes : list node) :
  (forall (module : option string) (level : nat) (s : gset string),
     1 <= level -> process_node M distribution (ImportFrom module level) s = NodeDone s) /\
  walk_nodes M distribution nodes ∅
  = walk_nodes M distribution (filter (fun n => is_relative_from n = false) nodes) ∅ /\
  (forall (x : string) (s : gset string),
     process_node M distribution (ImportFrom (Some x) 0) s
     = match add_if_external M distribution (first_segment x) s with
       | Some s' => NodeDone s'
       | None => NodeRaised s
       end).
Proof.
  split; [|split].
  - intros module [|level] s Hl; [lia|done].
  - rewrite !walk_nodes_eq. f_equal. f_equal. f_equal.
    induction nodes as [|n nodes IH]; [done|].
    rewrite filter_cons. simpl.
    destruct n as [names | [x|] [|level] | ]; simpl; rewrite ?IH; try done.
  - done.
Qed.

(** C8: a [from ... import] node whose module is [None] or empty leaves the
    import set unchanged (at level 0 with [None] the [AttributeError] is
    caught by the node loop), so the loop returns the same set with or
    without it.  The grammar gives every absolute from-import a non-empty
    module, so a level-0 node never has the empty module. *)
Theorem from_import_without_module_skipped (module : option string) (level : nat)
  (pre post : list node) (s : gset string)
  (Hmod : module = None \/ module = Some "")
  (Hgrammar : level = 0 -> module <> Some "") :
  node_result_set (process_node M distribution (ImportFrom module level) s) = s /\
  walk_nodes M distribution (pre ++ ImportFrom module level :: post) s
  = walk_nodes M distribution (pre ++ post) s.
Proof.
  assert (Hnames : node_reached_names M distribution (ImportFrom module level) = []).
  { unfold node_reached_names.
    destruct Hmod as [-> | ->]; simpl; [by destruct level|].
    destruct level; [by destruct Hgrammar|done]. }
  split.
  - rewrite process_node_set, Hnames. set_solver.
  - rewrite !walk_nodes_eq, !flat_map_app. cbn [flat_map]. rewrite Hnames. done.
Qed.

(* ------------------------------------------------------------------ *)
(** ** The file and directory level *)

Variable read_bytes : string -> option (list Byte.byte).
Variable detect : list Byte.byte -> option string.
Variable read_parse : string -> string -> option (list node).

Local Abbreviation scan_imports' := (scan_imports M distribution read_bytes detect read_parse).

Lemma scan_imports_eq (p : string) :
  scan_imports' p
  = match read_bytes p with
    | Some raw =>
        match read_parse p (file_encoding detect raw) with
        | Some tree => list_to_set (omap (fun name => cls name)
                                         (flat_map (node_reached_names M distribution) tree))
        | None => ∅
        end
    | None => ∅
    end.
Proof.
  unfold scan_imports.
  destruct (read_bytes p) as [raw|]; [|done].
  destruct (read_parse p (file_encoding detect raw)) as [tree|]; [|done].
  rewrite walk_nodes_eq. set_solver.
Qed.

Lemma scan_imports_failed (p : string) :
  parsed_ok M read_bytes detect read_parse p = false -> scan_imports' p = ∅.
Proof.
  unfold parsed_ok. rewrite scan_imports_eq.
  destruct (read_bytes p) as [raw|]; [|done].
  destruct (read_parse p (file_encoding detect raw)); [|done].
  rewrite bool_decide_eq_false. intros []. eauto.
Qed.

Local Abbreviation scan_directory' := (scan_directory M distribution read_bytes detect read_parse).

Lemma scan_root_eq (acc : gset string) (rf : string * list string) :
  scan_root M distribution read_bytes detect read_parse acc rf
  = acc ∪ ⋃ (map scan_imports'
               (let '(root, files) := rf in
                if skipped_root root then []
                else map (path_join root)
                       (filter (fun f => ends_with ".py" f = true) files))).
Proof.
  destruct rf as [root files]; unfold scan_root.
  destruct (skipped_root root); simpl; [set_solver|].
  revert acc. induction files as [|f files IH]; intros acc; simpl; [set_solver|].
  rewrite IH. rewrite filter_cons.
  destruct (ends_with ".py" f); simpl; set_solver.
Qed.

(** The walker's set is the union of what [scan_imports] returns for each
    path it is called on. *)
Lemma scan_directory_eq (directory : string) (cs : list fs_entry) :
  scan_directory' directory cs
  = ⋃ (map scan_imports' (scanned_files directory cs)).
Proof.
  unfold scan_directory, scanned_files.
  assert (H : forall (w : list (string * list string)) (acc : gset string),
    fold_left (scan_root M distribution read_bytes detect read_parse) w acc
    = acc ∪ ⋃ (map scan_imports'
                 (flat_map (fun '(root, files) =>
                    if skipped_root root then []
                    else map (path_join root)
                           (filter (fun f => ends_with ".py" f = true) files)) w))).
  { induction w as [|rf w IH]; intros acc; simpl; [set_solver|].
    rewrite IH, scan_root_eq, map_app, union_list_app_L.
    destruct rf; set_solver. }
  rewrite H. set_solver.
Qed.

Lemma union_list_failed_free (l : list string) :
  ⋃ (map scan_imports' l)
  = ⋃ (map scan_imports' (filter (fun p => parsed_ok M read_bytes detect read_parse p = true) l)).
Proof.
  induction l as [|p l IH]; simpl; [done|].
  rewrite filter_cons.
  destruct (parsed_ok M read_bytes detect read_parse p) eqn:Hp; simpl.
  - rewrite IH. done.
  - rewrite (scan_imports_failed p Hp), IH. set_solver.
Qed.

(* ------------------------------------------------------------------ *)
(** ** Claims about files, the walk and the manifest *)

(** C4: a file that cannot be read, decoded or parsed gives the empty set;
    the walk goes on, the final set is the union of the sets of the files
    that were read and parsed, and it contains everything any scanned file
    contributes. *)
Theorem failed_files_contribute_nothing (directory : string) (cs : list fs_entry) :
  (forall p : string, parsed_ok M read_bytes detect read_parse p = false ->
     scan_imports' p = ∅) /\
  scan_directory' directory cs
  = ⋃ (map scan_imports'
         (filter (fun p => parsed_ok M read_bytes detect read_parse p = true)
                 (scanned_files directory cs))) /\
  (forall p : string, p ∈ scanned_files directory cs ->
     scan_imports' p ⊆ scan_directory' directory cs).
Proof.
  split; [exact scan_imports_failed|split].
  - rewrite scan_directory_eq. apply union_list_failed_free.
  - intros p Hp. rewrite scan_directory_eq.
    intros x Hx. apply elem_of_union_list.
    exists (scan_imports' p). split; [|done].
    apply list_elem_of_fmap. eauto.
Qed.

(** C5: a file all of whose imported module names (aliases of [import],
    modules of absolute [from ... import]) have their first dotted segment
    in the standard-library set contributes nothing. *)
Theorem stdlib_only_file_contributes_nothing (p : string) (raw : list Byte.byte)
  (tree : list node)
  (Hread : read_bytes p = Some raw)
  (Hparse : read_parse p (file_encoding detect raw) = Some tree)
  (Hstd : forall name : string, name ∈ flat_map node_module_names tree ->
            first_segment name ∈ stdlib_modules) :
  scan_imports' p = ∅.
Proof.
  rewrite scan_imports_eq, Hread, Hparse.
  apply set_eq. intros x. rewrite elem_of_list_to_set, list_elem_of_omap.
  split; [|set_solver].
  intros (name & Hname & Hx).
  apply reached_names_origin in Hname as (n & Hn & Hname).
  apply added_some in Hx as [Hext _].
  unfold is_external_package in Hext.
  rewrite decide_True in Hext; [discriminate|].
  apply Hstd, list_elem_of_In, in_flat_map. exists n.
  split; by apply list_elem_of_In.
Qed.

Lemma requirements_lines_NoDup (X : gset string) : NoDup (requirements_lines X).
Proof.
  unfold requirements_lines.
  rewrite (merge_sort_Permutation String.le _).
  apply NoDup_elements.
Qed.

Lemma scan_imports_reached (p : string) :
  scan_imports' p
  = list_to_set (omap (fun name => cls name)
                      (file_reached_names M distribution read_bytes detect read_parse p)).
Proof.
  rewrite scan_imports_eq. unfold file_reached_names.
  destruct (read_bytes p) as [raw|]; [|done].
  destruct (read_parse p (file_encoding detect raw)); done.
Qed.

(** C6: every package name occurs at most once among the lines of the
    manifest, whatever the directory; and two module names with the same
    first dotted segment (such as [pkg.sub] and [pkg]), wherever the
    classifier meets them, in one scanned file or in two, give the same
    package name, which is then exactly one line of the manifest. *)
Theorem manifest_entries_unique (directory : string) (cs : list fs_entry) :
  NoDup (requirements_lines (scan_directory' directory cs)) /\
  (forall (p1 p2 name1 name2 x : string),
     p1 ∈ scanned_files directory cs -> p2 ∈ scanned_files directory cs ->
     name1 ∈ file_reached_names M distribution read_bytes detect read_parse p1 ->
     name2 ∈ file_reached_names M distribution read_bytes detect read_parse p2 ->
     first_segment name1 = first_segment name2 ->
     added M distribution name1 = Some x ->
     added M distribution name2 = Some x /\
     count_occ string_dec (requirements_lines (scan_directory' directory cs)) x = 1).
Proof.
  split; [apply requirements_lines_NoDup|].
  intros p1 p2 name1 name2 x Hp1 Hp2 Hn1 Hn2 Hseg Hx.
  split; [unfold added in *; rewrite <-Hseg; exact Hx|].
  apply (NoDup_count_occ' string_dec); [apply NoDup_ListNoDup, requirements_lines_NoDup|].
  apply list_elem_of_In, requirements_lines_elem. rewrite scan_directory_eq.
  apply elem_of_union_list. exists (scan_imports' p1).
  split; [apply list_elem_of_fmap; eauto|].
  rewrite scan_imports_reached. apply elem_of_list_to_set, list_elem_of_omap. eauto.
Qed.

(** C10: every line of the manifest is the first dotted segment of a module
    name that occurs in an import statement of a scanned, parsed file, or
    the value the package mapping gives that segment. *)
Theorem manifest_entries_have_origin (directory : string) (cs : list fs_entry)
  (x : string)
  (Hx : x ∈ requirements_lines (scan_directory' directory cs)) :
  exists (p : string) (raw : list Byte.byte) (tree : list node) (n : node) (name : string),
    p ∈ scanned_files directory cs /\
    read_bytes p = Some raw /\
    read_parse p (file_encoding detect raw) = Some tree /\
    n ∈ tree /\ name ∈ node_module_names n /\
    (x = first_segment name \/ M !! first_segment name = Some x).
Proof.
  apply requirements_lines_elem in Hx.
  rewrite scan_directory_eq in Hx.
  apply elem_of_union_list in Hx as (X & HX & Hx).
  apply list_elem_of_fmap in HX as (p & -> & Hp).
  rewrite scan_imports_eq in Hx.
  destruct (read_bytes p) as [raw|] eqn:Hread; [|set_solver].
  destruct (read_parse p (file_encoding detect raw)) as [tree|] eqn:Hparse; [|set_solver].
  rewrite elem_of_list_to_set, list_elem_of_omap in Hx.
  destruct Hx as (name & Hname & Hcls).
  apply reached_names_origin in Hname as (n & Hn & Hname).
  exists p, raw, tree, n, name.
  repeat split; try done.
  apply added_some in Hcls as [_ ->]. unfold get_package_name.
  destruct (M !! first_segment name) eqn:Hm; simpl; auto.
Qed.

(** C7: the manifest is a function of the directory: scanning it again, or
    scanning it with its directories listed in any other order, writes the
    same text; and sorting any enumeration of the final set (whatever order
    the set was built in) gives the same lines, in strictly increasing
    order. *)
Theorem manifest_independent_of_walk_order (directory : string)
  (cs1 cs2 : list fs_entry) (Hequiv : fs_equiv cs1 cs2) :
  requirements_text (scan_directory' directory cs1)
  = requirements_text (scan_directory' directory cs2) /\
  (forall (X : gset string) (l : list string), NoDup l -> l ≡ₚ elements X ->
     merge_sort String.le l = requirements_lines X) /\
  StronglySorted (fun a b => String.le a b /\ a <> b)
                 (requirements_lines (scan_directory' directory cs1)).
Proof.
  split; [|split].
  - f_equal. rewrite !scan_directory_eq. apply leibniz_equiv.
    apply union_list_permutation_proper, Permutation_map.
    apply scanned_files_fs_equiv. done.
  - intros X l Hnd Hl. unfold requirements_lines.
    apply (Sorted_unique String.le).
    + apply Sorted_merge_sort. apply _.
    + apply Sorted_merge_sort. apply _.
    + rewrite !merge_sort_Permutation. done.
  - assert (Hnd := requirements_lines_NoDup (scan_directory' directory cs1)).
    assert (Hs : StronglySorted String.le
                   (requirements_lines (scan_directory' directory cs1))).
    { apply StronglySorted_merge_sort; apply _. }
    revert Hnd Hs. generalize (requirements_lines (scan_directory' directory cs1)).
    induction l as [|a l IH]; intros Hnd Hs; constructor.
    + apply IH; [by inversion Hnd|by inversion Hs].
    + inversion Hnd as [|? ? Hna Hndl]; inversion Hs as [|? ? Hsl Hall]; subst.
      rewrite Forall_forall in Hall |- *. intros b Hb. split; [by apply Hall|].
      intros ->. apply Hna. apply list_elem_of_In. done.
Qed.

(** The exclusion of the walk: a file with a path component [.venv] is never
    scanned: every path handed to [scan_imports] is free of that component;
    every other [.py] file the walk meets, also one below [venv] or
    [myenv], is scanned; and the import set is the union of what the scanned
    files contribute.  (File names never contain ["/"].) *)
Theorem dot_venv_component_never_scanned (directory : string) (cs : list fs_entry)
  (Hwf : names_ok cs = true) :
  (forall p : string, p ∈ scanned_files directory cs -> ".venv" ∉ split_on "/" p) /\
  (forall (root : string) (files : list string) (f : string),
     (root, files) ∈ os_walk directory cs -> skipped_root root = false ->
     f ∈ files -> ends_with ".py" f = true ->
     path_join root f ∈ scanned_files directory cs) /\
  scan_directory' directory cs = ⋃ (map scan_imports' (scanned_files directory cs)).
Proof.
  split; [|split].
  - intros p Hp Hv.
    apply scanned_files_elem in Hp as (root & files & f & Hrf & Hsk & Hf & Hpy & ->).
    apply path_join_venv in Hv; [| by apply (os_walk_ok directory cs Hwf root files f) | done].
    unfold skipped_root in Hsk.
    assert (Hex : existsb (String.eqb ".venv") (split_on "/" root) = true).
    { apply existsb_exists. exists ".venv". split; [by apply list_elem_of_In|].
      apply String.eqb_refl. }
    rewrite Hsk in Hex. discriminate.
  - intros root files f Hrf Hsk Hf Hpy.
    apply scanned_files_elem. exists root, files, f. done.
  - apply scan_directory_eq.
Qed.

End Properties.

(* ------------------------------------------------------------------ *)
(** ** Properties of [main] *)

Section MainProperties.

Variable M : gmap string string.
Variable distribution : string -> dist_lookup.
Variable read_bytes : string -> option (list Byte.byte).
Variable detect : list Byte.byte -> option string.
Variable read_parse : string -> string -> option (list node).
Variable isdir : string -> bool.
Variable abspath : string -> string.
Variable cwd : string.
Variable dir_entries : string -> list fs_entry.
Variable write_ok : string -> bool.
Variable run : list string -> run_status.
Variable sys_executable : string.

Local Abbreviation main' :=
  (main M distribution read_bytes detect read_parse isdir abspath cwd dir_entries
        write_ok run sys_executable).


End MainProperties.

(* ------------------------------------------------------------------ *)
(** ** Facts for the environment steps *)

Lemma path_join_not_empty (a b : string) : b <> "" -> path_join a b <> "".
Proof.
  intros Hb. unfold path_join.
  destruct (starts_with "/" b); [done|].
  destruct (String.eqb a "" || ends_with "/" a).
  - destruct a as [|c a]; [by rewrite str_app_nil|]. rewrite str_app_cons. done.
  - destruct a as [|c a]; [rewrite str_app_nil; done|]. rewrite str_app_cons. done.
Qed.

(** [posixpath.basename] takes back the component [posixpath.join] added. *)
Lemma basename_path_join (a n : string) :
  has_char "/" n = false -> n <> "" -> basename (path_join a n) = n.
Proof.
  intros Hslash Hn. unfold basename, path_join.
  destruct (starts_with "/" n) eqn:Hs.
  { destruct n as [|c n]; [done|]. cbn [starts_with has_char] in Hs, Hslash.
    rewrite andb_true_r in Hs. apply Ascii.eqb_eq in Hs as <-.
    rewrite Ascii.eqb_refl in Hslash. discriminate. }
  destruct (String.eqb a "") eqn:He; simpl.
  { apply String.eqb_eq in He as ->. rewrite str_app_nil, split_on_no_sep by done. done. }
  destruct (ends_with "/" a) eqn:Hend.
  - destruct (ends_with_spec _ _ Hend) as [r ->].
    rewrite <-str_app_assoc. change ("/" ++ n) with (String "/" n).
    rewrite split_on_sep_app, (split_on_no_sep "/" n) by done. apply last_last.
  - change ("/" ++ n) with (String "/" n).
    rewrite split_on_sep_app, (split_on_no_sep "/" n) by done. apply last_last.
Qed.

Lemma venv_names_ok (n : string) :
  n ∈ venv_names -> has_char "/" n = false /\ n <> "".
Proof.
  unfold venv_names. rewrite !elem_of_cons.
  intros [-> | [-> | [-> | Hn]]]; [done | done | done | by apply not_elem_of_nil in Hn].
Qed.

Lemma first_existing_spec (isdir : string -> bool) (d : string) (names : list string) :
  (first_existing isdir d names = None <->
   Forall (fun n => isdir (path_join d n) = false) names) /\
  (forall p : string, first_existing isdir d names = Some p ->
     exists pre n post, names = (pre ++ n :: post)%list /\ p = path_join d n /\
       isdir p = true /\ Forall (fun m => isdir (path_join d m) = false) pre).
Proof.
  induction names as [|n names [IH1 IH2]]; simpl.
  - split; [split; [intros _; constructor | done] | discriminate].
  - rewrite Forall_cons. destruct (isdir (path_join d n)) eqn:E.
    + split; [split; [discriminate | intros [H _]; congruence] |].
      intros p [= <-]. exists [], n, names. repeat split; [done | constructor].
    + split; [rewrite IH1; tauto |].
      intros p Hp. destruct (IH2 p Hp) as (pre & m & post & -> & -> & Hd & Hpre).
      exists (n :: pre), m, post. repeat split; [done | by constructor].
Qed.

Lemma find_existing_venv_some (isdir : string -> bool) (d p : string) :
  find_existing_venv isdir d = Some p ->
  exists n, n ∈ venv_names /\ p = path_join d n /\ isdir p = true.
Proof.
  intros Hp. destruct (proj2 (first_existing_spec isdir d venv_names) p Hp)
    as (pre & n & post & Hn & -> & Hd & _).
  exists n. split; [|done]. rewrite Hn. apply elem_of_app. right. apply elem_of_cons. by left.
Qed.

Lemma str_concat_nil_cons (x : string) (l : list string) :
  String.concat "" (x :: l) = x ++ String.concat "" l.
Proof. destruct l; simpl; [by rewrite str_app_nil_r | by rewrite str_app_nil]. Qed.

Lemma splitlines_line (s t : string) :
  no_line_break s = true -> splitlines (s ++ String "010" t) = s :: splitlines t.
Proof.
  induction s as [|c s IH]; intros H.
  - rewrite str_app_nil. reflexivity.
  - rewrite str_app_cons. cbn [no_line_break] in H.
    apply andb_true_iff in H as [Hc Hs]. apply negb_true_iff in Hc.
    cbn [splitlines].
    destruct (Ascii.eqb c "013") eqn:E.
    { apply Ascii.eqb_eq in E as ->. discriminate. }
    rewrite Hc, IH by done. done.
Qed.

Lemma prun_not_in_prints (cmd : list string) (l : list string) (f : string -> string) :
  PRun cmd ∉ map (fun m => PPrint (f m)) l.
Proof. intros H. apply list_elem_of_fmap in H as (m & Hm & _). discriminate. Qed.

Lemma runs_app (l1 l2 : list penv_event) : runs (l1 ++ l2) = (runs l1 ++ runs l2)%list.
Proof. apply omap_app. Qed.

Lemma runs_cons_print (m : string) (l : list penv_event) : runs (PPrint m :: l) = runs l.
Proof. done. Qed.

Lemma runs_cons_prompt (l : list penv_event) : runs (PPrompt :: l) = runs l.
Proof. done. Qed.

Lemma runs_cons_run (c : list string) (l : list penv_event) : runs (PRun c :: l) = c :: runs l.
Proof. done. Qed.

Lemma runs_nil : runs [] = [].
Proof. done. Qed.

Lemma runs_bullets (l : list string) :
  runs (map (fun m => PPrint ("- " ++ m)) l) = [].
Proof. induction l; done. Qed.

Ltac runs_simpl :=
  repeat (rewrite ?runs_app, ?runs_cons_print, ?runs_cons_prompt, ?runs_cons_run,
                  ?runs_bullets, ?runs_nil).

(** Membership in a concrete list of events. *)
Ltac ev_mem :=
  repeat (rewrite ?elem_of_cons, ?elem_of_app, ?elem_of_nil in *).

(* ------------------------------------------------------------------ *)
(** ** Properties of the environment steps *)

Section ProvisionProperties.

Variable isdir : string -> bool.
Variable run : list string -> run_status.
Variable sys_executable : string.
Variable read_text : string -> option string.
Variable answer : option string.

Local Abbreviation create' := (create_or_use_venv isdir run sys_executable).
Local Abbreviation upgrade' := (upgrade_pip run).
Local Abbreviation install' := (install_requirements run read_text answer).
Local Abbreviation provision' := (provision isdir run sys_executable read_text answer).

(** [find_existing_venv] looks for [.venv], [venv] and [myenv] in this
    order and returns the path of the first that is a directory; it returns
    [None] exactly when none of the three is. *)
Theorem find_existing_venv_first_match (d : string) :
  (find_existing_venv isdir d = None <->
   Forall (fun n => isdir (path_join d n) = false) venv_names) /\
  (forall p : string, find_existing_venv isdir d = Some p ->
     exists pre n post, venv_names = (pre ++ n :: post)%list /\ p = path_join d n /\
       isdir p = true /\ Forall (fun m => isdir (path_join d m) = false) pre).
Proof. apply first_existing_spec. Qed.

(** [create_or_use_venv] returns one of the names [.venv], [venv],
    [myenv]; joined back onto the directory it gives the path of the
    environment found, or [directory/.venv] when it had to create one.  It
    runs a command exactly when no environment exists, and that command is
    [python -m venv directory/.venv]; it fails only then, when the command
    fails. *)
Theorem create_or_use_venv_result (d : string) :
  (forall name : string, snd (create' d) = PyOk name ->
     name ∈ venv_names /\ path_join d name = venv_path_of isdir d /\
     (find_existing_venv isdir d = None -> name = ".venv" /\ run (venv_create_cmd sys_executable d) = RunOk)) /\
  (forall e : string, snd (create' d) = PyRaise e ->
     find_existing_venv isdir d = None /\ run (venv_create_cmd sys_executable d) <> RunOk) /\
  runs (fst (create' d)) =
    match find_existing_venv isdir d with
    | Some _ => []
    | None => [venv_create_cmd sys_executable d]
    end.
Proof.
  unfold create_or_use_venv, venv_path_of.
  destruct (find_existing_venv isdir d) as [p|] eqn:Ef.
  - destruct (find_existing_venv_some isdir d p Ef) as (n & Hn & -> & _).
    destruct (venv_names_ok n Hn) as [Hs Hne].
    destruct (String.eqb (path_join d n) "") eqn:E.
    { apply String.eqb_eq in E. by apply path_join_not_empty in E. }
    simpl. rewrite basename_path_join by done.
    split; [|split]; [| discriminate | done].
    intros name [= <-]. split; [done|]. split; [done|]. discriminate.
  - unfold run_result. simpl.
    split; [|split].
    + intros name. destruct (run (venv_create_cmd sys_executable d)); try discriminate.
      intros [= <-]. split; [by apply elem_of_cons; left|]. done.
    + intros e. destruct (run (venv_create_cmd sys_executable d)); [discriminate | |];
        intros _; done.
    + done.
Qed.

(** [upgrade_pip] runs [venv_dir/bin/python -m pip install --upgrade pip]
    and nothing else; a failing upgrade ([CalledProcessError]) is reported
    and the run goes on; only a python that cannot be started stops it. *)
Theorem upgrade_pip_failure_continues (v : string) :
  runs (fst (upgrade' v)) = [pip_upgrade_cmd v] /\
  (snd (upgrade' v) = PyOk tt <-> run (pip_upgrade_cmd v) <> RunNotStarted) /\
  (PPrint "Failed to upgrade pip. Continuing with installation..." ∈ fst (upgrade' v)
   <-> run (pip_upgrade_cmd v) = RunFailed).
Proof using run.
  unfold upgrade_pip. destruct (run (pip_upgrade_cmd v)); simpl;
    (split; [done | split]); rewrite ?elem_of_cons, ?elem_of_nil;
    split; intros H;
    first [ done | discriminate | discriminate H
          | exfalso; apply H; reflexivity
          | solve [repeat (first [left; reflexivity | right])]
          | solve [repeat destruct H as [H|H]; try discriminate H; done] ].
Qed.

(** [install_requirements] runs [venv_dir/bin/pip install -r file] when the
    file is read and the answer, in any case, is [yes], and no command
    otherwise; it returns normally when it is cancelled or pip succeeds. *)
Theorem install_requirements_runs_pip_on_yes (v f : string) :
  runs (fst (install' v f)) =
    (if install_confirmed read_text answer f then [pip_install_cmd v f] else []) /\
  (snd (install' v f) = PyOk tt <->
   exists c a, read_text f = Some c /\ answer = Some a /\
     (lower a <> "yes" \/ run (pip_install_cmd v f) = RunOk)).
Proof.
  unfold install_requirements, install_confirmed.
  destruct (read_text f) as [c|]; [|split; [done | split; [discriminate | intros (? & ? & ? & _); discriminate]]].
  destruct answer as [a|].
  - destruct (String.eqb (lower a) "yes") eqn:Ey.
    + apply String.eqb_eq in Ey. cbn [fst snd].
      rewrite runs_app. rewrite runs_cons_print, runs_bullets. split; [done|].
      unfold run_result. split.
      * intros H. exists c, a. split; [done|]. split; [done|].
        right. destruct (run (pip_install_cmd v f)); congruence.
      * intros (c' & a' & [= <-] & [= <-] & [Hy | Hr]); [done|]. by rewrite Hr.
    + apply String.eqb_neq in Ey. cbn [fst snd].
      rewrite runs_app. rewrite runs_cons_print, runs_bullets. split; [done|].
      split; [intros _; exists c, a; auto | done].
  - cbn [fst snd]. rewrite runs_app. rewrite runs_cons_print, runs_bullets.
    split; [done|]. split; [discriminate | intros (? & ? & _ & ? & _); discriminate].
Qed.

Lemma create_or_use_venv_some (d p : string) :
  find_existing_venv isdir d = Some p ->
  create' d = ([PPrint ("Using existing virtual environment: " ++ p)], PyOk (basename p)) /\
  path_join d (basename p) = p.
Proof.
  intros Ef. unfold create_or_use_venv. rewrite Ef.
  destruct (find_existing_venv_some isdir d p Ef) as (n & Hn & -> & _).
  destruct (venv_names_ok n Hn) as [Hs Hne].
  destruct (String.eqb (path_join d n) "") eqn:E.
  { apply String.eqb_eq in E. by apply path_join_not_empty in E. }
  rewrite basename_path_join by done. done.
Qed.

Lemma create_or_use_venv_none (d : string) :
  find_existing_venv isdir d = None ->
  create' d = ([PPrint ("Creating new virtual environment: " ++ path_join d ".venv");
                PRun (venv_create_cmd sys_executable d)],
               match run (venv_create_cmd sys_executable d) with
               | RunOk => PyOk ".venv"
               | RunFailed => PyRaise "CalledProcessError"
               | RunNotStarted => PyRaise "OSError"
               end).
Proof.
  intros Ef. unfold create_or_use_venv, run_result. rewrite Ef.
  destruct (run (venv_create_cmd sys_executable d)); done.
Qed.



Ltac prov_cases vp f :=
  unfold upgrade_pip, install_requirements, install_confirmed, run_result;
  destruct (run (pip_upgrade_cmd vp)); destruct (read_text f) as [c|];
  destruct answer as [a|];
  try (destruct (String.eqb (lower a) "yes") eqn:Ey;
       [apply String.eqb_eq in Ey | apply String.eqb_neq in Ey]);
  try destruct (run (pip_install_cmd vp f)); cbn [fst snd].

(** The commands the environment steps of [main] run, in order: creating
    [.venv] when no environment exists, and, unless that fails, upgrading
    pip in the environment found or created, then, unless python cannot be
    started, [pip install -r] there when the prompt is answered [yes]. *)
Theorem provision_commands (d f : string) :
  let vp := venv_path_of isdir d in
  let after := pip_upgrade_cmd vp ::
        match run (pip_upgrade_cmd vp) with
        | RunNotStarted => []
        | _ => if install_confirmed read_text answer f then [pip_install_cmd vp f] else []
        end in
  runs (fst (provision' d f)) =
    match find_existing_venv isdir d with
    | Some _ => after
    | None => venv_create_cmd sys_executable d ::
                match run (venv_create_cmd sys_executable d) with
                | RunOk => after
                | _ => []
                end
    end.
Proof.
  unfold venv_path_of. unfold provision.
  destruct (find_existing_venv isdir d) as [p|] eqn:Ef; cbv zeta; cbn [default id].
  - destruct (create_or_use_venv_some d p Ef) as [-> Hp]. cbn iota. rewrite Hp.
    prov_cases p f; runs_simpl; done.
  - rewrite (create_or_use_venv_none d Ef).
    destruct (run (venv_create_cmd sys_executable d)); cbn iota; cbn [fst];
      [|runs_simpl; done..].
    prov_cases (path_join d ".venv") f; runs_simpl; done.
Qed.

Lemma app3_last {A : Type} (a b c x : list A) :
  exists pre : list A, (a ++ b ++ c ++ x)%list = (pre ++ x)%list.
Proof. exists (a ++ b ++ c)%list. rewrite <-!app_assoc. done. Qed.

Ltac prov_or :=
  first [right; reflexivity | right; assumption | left; discriminate | left; assumption].

Ltac prov_success_tac :=
  split; [split|];
  [ intros H;
    first [ discriminate H
          | split; [prov_or |]; split; [discriminate |];
            eexists _, _; split; [reflexivity |]; split; [reflexivity |]; prov_or ]
  | intros (_ & Hup & c' & a' & Hc & Ha & Hor);
    first [ discriminate Hc | discriminate Ha | reflexivity
          | exfalso; apply Hup; reflexivity
          | injection Ha as <-;
            destruct Hor as [Hor | Hor]; [exfalso; apply Hor; assumption | discriminate Hor] ]
  | intros H;
    first [ discriminate H | apply app3_last ] ].

(** The environment steps end normally exactly when the environment exists
    or is created, python in it can be started, the manifest is read and
    the prompt answered, and either the answer is not [yes] or pip
    succeeds; they then end with the three closing lines, also when the
    installation was cancelled. *)
Theorem provision_success (d f : string) :
  let vp := venv_path_of isdir d in
  (snd (provision' d f) = PyOk tt <->
   (find_existing_venv isdir d <> None \/ run (venv_create_cmd sys_executable d) = RunOk) /\
   run (pip_upgrade_cmd vp) <> RunNotStarted /\
   exists c a, read_text f = Some c /\ answer = Some a /\
     (lower a <> "yes" \/ run (pip_install_cmd vp f) = RunOk)) /\
  (snd (provision' d f) = PyOk tt ->
   exists pre : list penv_event,
     fst (provision' d f)
     = (pre ++ [PPrint (nl ++ "Done! Your virtual environment is ready.");
                PPrint ("Virtual environment location: " ++ vp);
                PPrint ("Requirements file location: " ++ f)])%list).
Proof.
  unfold venv_path_of. unfold provision.
  destruct (find_existing_venv isdir d) as [p|] eqn:Ef; cbv zeta; cbn [default id].
  - destruct (create_or_use_venv_some d p Ef) as [-> Hp]. cbn iota. rewrite Hp.
    prov_cases p f; prov_success_tac.
  - rewrite (create_or_use_venv_none d Ef).
    destruct (run (venv_create_cmd sys_executable d)) eqn:Ec; cbn iota; cbn [fst snd];
      [| (split; [split; [discriminate | intros ([H|H] & _); [exfalso; apply H; done | discriminate H]] | discriminate])..].
    prov_cases (path_join d ".venv") f; prov_success_tac.
Qed.

End ProvisionProperties.

(* ------------------------------------------------------------------ *)
(** ** The directory prompt and [main] *)

Lemma not_in_forall {A : Type} (P : A -> bool) (l : list A) (x : A) :
  Forall (fun e => P e = true) l -> P x = false -> x ∉ l.
Proof. intros Hl Hx Hin. rewrite Forall_forall in Hl. rewrite (Hl x Hin) in Hx. done. Qed.

Section InputProperties.

Variable isdir : string -> bool.
Variable abspath : string -> string.
Variable cwd : string.

Local Abbreviation gdi := (get_directory_input isdir abspath cwd).

Lemma get_directory_input_events (stdin : list string) :
  Forall (fun e => pre_scan e = true) (fst (gdi stdin)) /\
  (forall pd : string, snd (gdi stdin) = Some pd ->
     Forall (fun e => prompt_or_print e = true) (fst (gdi stdin))).
Proof.
  induction stdin as [|line rest [IH1 IH2]]; simpl.
  - split; [repeat constructor | discriminate].
  - destruct (String.eqb (strip line) ""); [split; [repeat constructor | intros; repeat constructor]|].
    destruct (isdir (strip line)); [split; [repeat constructor | intros; repeat constructor]|].
    destruct (gdi rest) as [evs r]. simpl in *.
    split; [repeat constructor; done|].
    intros pd Hpd. repeat constructor. by apply (IH2 pd).
Qed.



End InputProperties.

Lemma choose_project_dir_events (isdir : string -> bool) (abspath : string -> string)
  (cwd : string) (input_dir : option string) (stdin : list string) :
  Forall (fun e => pre_scan e = true) (fst (choose_project_dir isdir abspath cwd input_dir stdin)) /\
  (forall pd : string, snd (choose_project_dir isdir abspath cwd input_dir stdin) = Some pd ->
     Forall (fun e => prompt_or_print e = true)
            (fst (choose_project_dir isdir abspath cwd input_dir stdin))).
Proof.
  unfold choose_project_dir.
  destruct input_dir as [d|]; [|apply get_directory_input_events].
  destruct (negb (String.eqb d "")); [|apply get_directory_input_events].
  destruct (isdir (abspath d)); simpl.
  - split; [constructor | intros; constructor].
  - split; [repeat constructor | discriminate].
Qed.

Lemma gdi_no_exit (isdir : string -> bool) (abspath : string -> string) (cwd : string)
  (stdin : list string) (c : nat) :
  EExit c ∉ fst (get_directory_input isdir abspath cwd stdin).
Proof.
  induction stdin as [|line rest IH]; simpl; intros Hin.
  - ev_mem. intuition discriminate.
  - destruct (String.eqb (strip line) ""); [cbn [fst] in Hin; ev_mem; intuition discriminate|].
    destruct (isdir (strip line)); [cbn [fst] in Hin; ev_mem; intuition discriminate|].
    destruct (get_directory_input isdir abspath cwd rest) as [evs r]. cbn [fst] in *.
    ev_mem. destruct Hin as [H|[H|H]]; [discriminate H|discriminate H|]. by apply IH.
Qed.

Lemma choose_project_dir_exit (isdir : string -> bool) (abspath : string -> string)
  (cwd : string) (input_dir : option string) (stdin : list string) (c : nat) :
  EExit c ∈ fst (choose_project_dir isdir abspath cwd input_dir stdin) ->
  c = 1 /\ snd (choose_project_dir isdir abspath cwd input_dir stdin) = None /\
  last (fst (choose_project_dir isdir abspath cwd input_dir stdin)) = Some (EExit 1).
Proof.
  unfold choose_project_dir.
  destruct input_dir as [d|]; [|intros H; by apply gdi_no_exit in H].
  destruct (negb (String.eqb d "")); [|intros H; by apply gdi_no_exit in H].
  destruct (isdir (abspath d)); simpl.
  - rewrite elem_of_nil. done.
  - rewrite !elem_of_cons, elem_of_nil. intros [H|[H|H]]; [done| |done].
    injection H as ->. done.
Qed.

Lemma filter_env_prompts (l : list penv_event) :
  length (filter (fun e => is_prompt e = true) (map env_event l))
  = length (filter (fun e => is_pprompt e = true) l).
Proof.
  induction l as [|[m|cmd|] l IH]; [done| | |]; cbn [map env_event];
    rewrite !filter_cons; simpl; rewrite ?IH; done.
Qed.

Lemma pprompts_bullets (f : string -> string) (l : list string) :
  filter (fun e => is_pprompt e = true) (map (fun m => PPrint (f m)) l) = [].
Proof. induction l as [|m l IH]; [done|]. cbn [map]. rewrite filter_cons. simpl. done. Qed.

Lemma env_events_like (l : list penv_event) :
  Forall (fun e => env_like e = true) (map env_event l).
Proof.
  apply Forall_forall. intros e He.
  apply list_elem_of_fmap in He as ([m|cmd|] & -> & _); done.
Qed.

Ltac pprompt_count :=
  rewrite ?filter_app, ?length_app, ?filter_cons, ?pprompts_bullets; simpl;
  rewrite ?filter_app, ?length_app, ?filter_cons, ?pprompts_bullets; simpl; lia.

(** The environment steps ask at most one question. *)
Lemma provision_one_prompt (isdir : string -> bool) (run : list string -> run_status)
  (sys_executable : string) (read_text : string -> option string)
  (answer : option string) (d f : string) :
  length (filter (fun e => is_pprompt e = true)
            (fst (provision isdir run sys_executable read_text answer d f))) <= 1.
Proof.
  unfold provision.
  destruct (create_or_use_venv isdir run sys_executable d) as [e1 r1] eqn:E1.
  assert (H1 : filter (fun e => is_pprompt e = true) e1 = []).
  { unfold create_or_use_venv in E1.
    destruct (find_existing_venv isdir d); [destruct (negb _)|];
      injection E1 as <- _; done. }
  destruct r1 as [venv_name|e]; [|cbn [fst]; rewrite H1; simpl; lia].
  destruct (upgrade_pip run (path_join d venv_name)) as [e2 r2] eqn:E2.
  assert (H2 : filter (fun e => is_pprompt e = true) e2 = []).
  { unfold upgrade_pip in E2. destruct (run _); injection E2 as <- _; done. }
  destruct r2 as [u|e]; [|cbn [fst]; rewrite filter_app, length_app, H1, H2; simpl; lia].
  destruct (install_requirements run read_text answer (path_join d venv_name) f) as [e3 r3] eqn:E3.
  assert (H3 : length (filter (fun e => is_pprompt e = true) e3) <= 1).
  { unfold install_requirements in E3.
    destruct (read_text f) as [c|]; [|injection E3 as <- _; simpl; lia].
    destruct answer as [a|]; [destruct (String.eqb (lower a) "yes")|];
      injection E3 as <- _; pprompt_count. }
  destruct r3; cbn [fst]; rewrite !filter_app, !length_app, H1, H2; simpl;
    rewrite ?filter_app, ?length_app; simpl; lia.
Qed.

Section MainExtra.

Variable M : gmap string string.
Variable distribution : string -> dist_lookup.
Variable read_bytes : string -> option (list Byte.byte).
Variable detect : list Byte.byte -> option string.
Variable read_parse : string -> string -> option (list node).
Variable isdir : string -> bool.
Variable abspath : string -> string.
Variable cwd : string.
Variable dir_entries : string -> list fs_entry.
Variable write_ok : string -> bool.
Variable run : list string -> run_status.
Variable sys_executable : string.

Local Abbreviation main' :=
  (main M distribution read_bytes detect read_parse isdir abspath cwd dir_entries
        write_ok run sys_executable).
Local Abbreviation scan' d :=
  (scan_directory M distribution read_bytes detect read_parse d (dir_entries d)).

(** The ways a run of [main] goes: it stops while fixing the directory;
    or it scans and exits because nothing was found; or it scans and
    fails to write the manifest; or it scans, writes the manifest and goes
    through the environment steps, which end normally or with an uncaught
    exception. *)
Lemma main_shape (input_dir : option string) (stdin : list string) :
  (snd (choose_project_dir isdir abspath cwd input_dir stdin) = None /\
   main' input_dir stdin = fst (choose_project_dir isdir abspath cwd input_dir stdin)) \/
  (exists (evs0 : list event) (pd : string) (m1 m2 m3 : string),
     Forall (fun e => prompt_or_print e = true) evs0 /\
     ((scan' pd = ∅ /\
       main' input_dir stdin = (evs0 ++ [EPrint m1; EPrint m2; EScan pd; EPrint m3; EExit 0])%list) \/
      (scan' pd <> ∅ /\ write_ok (path_join pd "requirements.txt") = false /\
       main' input_dir stdin = (evs0 ++ [EPrint m1; EPrint m2; EScan pd; EPrint m3; ECrash])%list) \/
      (scan' pd <> ∅ /\ write_ok (path_join pd "requirements.txt") = true /\
       exists (m4 : string) (tail : list event),
         Forall (fun e => env_like e = true) tail /\
         (main' input_dir stdin
          = (evs0 ++ EPrint m1 :: EPrint m2 :: EScan pd :: EPrint m3
                  :: EWrite (path_join pd "requirements.txt") (requirements_text (scan' pd))
                  :: EPrint m4 :: tail)%list \/
          main' input_dir stdin
          = (evs0 ++ EPrint m1 :: EPrint m2 :: EScan pd :: EPrint m3
                  :: EWrite (path_join pd "requirements.txt") (requirements_text (scan' pd))
                  :: EPrint m4 :: tail ++ [ECrash])%list)))).
Proof.
  destruct (choose_project_dir_events isdir abspath cwd input_dir stdin) as [_ Hsome].
  unfold main.
  destruct (choose_project_dir isdir abspath cwd input_dir stdin) as [evs [pd|]];
    cbn [fst snd] in *; [|by left].
  right. destruct (decide (scan' pd = ∅)) as [He|He].
  - eexists evs, pd, _, _, _. split; [exact (Hsome pd eq_refl)|].
    left. split; [done|]. reflexivity.
  - destruct (write_ok (path_join pd "requirements.txt")) eqn:Hw;
      eexists evs, pd, _, _, _; (split; [exact (Hsome pd eq_refl)|]); right.
    + right. split; [done|]. split; [done|].
      destruct (provision _ _ _ _ _ _ _) as [penv res].
      eexists _, (map env_event penv). split; [apply env_events_like|].
      destruct res; [left | right]; rewrite ?app_nil_r; reflexivity.
    + left. split; [done|]. split; [done|]. reflexivity.
Qed.


Lemma forall_no_write (P : event -> bool) (l : list event) (p t : string) :
  Forall (fun e => P e = true) l -> P (EWrite p t) = false -> EWrite p t ∉ l.
Proof. apply not_in_forall. Qed.

Lemma filter_write_nil (P : event -> bool) (l : list event) :
  Forall (fun e => P e = true) l -> (forall p t, P (EWrite p t) = false) ->
  filter (fun e => is_write e = true) l = [].
Proof.
  intros Hl HP. induction Hl as [|e l He Hl IH]; [done|].
  rewrite filter_cons, IH. destruct e; try done.
  rewrite HP in He. discriminate.
Qed.

(** Membership in a run of one of the shapes of [main_shape]. *)
Ltac shape_mem Hin H0 :=
  apply elem_of_app in Hin as [Hin|Hin];
  [exfalso; by apply (not_in_forall _ _ _ H0) in Hin|ev_mem].

(** [main] writes at most one file: [requirements.txt] in the directory
    it scanned, holding the manifest of that scan, once [open] succeeds
    there; it tries to write it whenever the scan found something, and a
    failed write ends the run with an uncaught exception; [sys.exit] is
    called only as the run's last step and never in a run that writes the
    manifest: with status 0 after a scan that found nothing, with status 1
    for an invalid [-i] directory, before any scan. *)
Theorem main_manifest_write (input_dir : option string) (stdin : list string) :
  length (filter (fun e => is_write e = true) (main' input_dir stdin)) <= 1 /\
  (forall p t : string, EWrite p t ∈ main' input_dir stdin ->
     exists pd, EScan pd ∈ main' input_dir stdin /\ p = path_join pd "requirements.txt" /\
       t = requirements_text (scan' pd) /\ scan' pd <> ∅ /\ write_ok p = true) /\
  (forall pd : string, EScan pd ∈ main' input_dir stdin -> scan' pd <> ∅ ->
     (write_ok (path_join pd "requirements.txt") = true ->
      EWrite (path_join pd "requirements.txt") (requirements_text (scan' pd))
        ∈ main' input_dir stdin) /\
     (write_ok (path_join pd "requirements.txt") = false ->
      last (main' input_dir stdin) = Some ECrash)) /\
  (forall c : nat, EExit c ∈ main' input_dir stdin ->
     last (main' input_dir stdin) = Some (EExit c) /\
     (forall p t : string, EWrite p t ∉ main' input_dir stdin) /\
     ((c = 0 /\ exists pd, EScan pd ∈ main' input_dir stdin /\ scan' pd = ∅) \/
      (c = 1 /\ forall pd, EScan pd ∉ main' input_dir stdin))).
Proof.
  destruct (choose_project_dir_events isdir abspath cwd input_dir stdin) as [Hpre _].
  destruct (main_shape input_dir stdin)
    as [[Hnone ->] | (evs0 & pd & m1 & m2 & m3 & Hevs0 &
         [(He & Hm) | [(He & Hwf & Hm) | (He & Hok & m4 & tail & Htail & Hm)]])].
  - (* stopped while fixing the directory *)
    assert (Hw : filter (fun e => is_write e = true)
                   (fst (choose_project_dir isdir abspath cwd input_dir stdin)) = [])
      by (apply (filter_write_nil _ _ Hpre); done).
    split; [rewrite Hw; simpl; lia|]. split; [|split].
    + intros p t Hin. by apply (forall_no_write _ _ _ _ Hpre) in Hin.
    + intros pd Hin. by apply (not_in_forall _ _ _ Hpre) in Hin.
    + intros c Hc. destruct (choose_project_dir_exit _ _ _ _ _ _ Hc) as (-> & _ & Hlast).
      split; [done|]. split.
      * intros p t Hin. by apply (forall_no_write _ _ _ _ Hpre) in Hin.
      * right. split; [done|]. intros pd Hin. by apply (not_in_forall _ _ _ Hpre) in Hin.
  - (* nothing found *)
    rewrite Hm.
    assert (Hw : filter (fun e => is_write e = true) evs0 = [])
      by (apply (filter_write_nil _ _ Hevs0); done).
    split; [rewrite filter_app, Hw, !filter_cons; simpl; lia|]. split; [|split].
    + intros p t Hin. shape_mem Hin Hevs0.
      repeat (destruct Hin as [Hin|Hin]; [discriminate Hin|]). done.
    + intros pd' Hin Hne. shape_mem Hin Hevs0.
      destruct Hin as [Hin|[Hin|[Hin|Hin]]]; try discriminate Hin.
      * injection Hin as <-. done.
      * repeat (destruct Hin as [Hin|Hin]; [discriminate Hin|]). done.
    + intros c Hc. split; [|split].
      * shape_mem Hc Hevs0. repeat (destruct Hc as [Hc|Hc]; [try discriminate Hc|]);
          [injection Hc as <-; rewrite last_app_cons; reflexivity | done].
      * intros p t Hin. shape_mem Hin Hevs0.
        repeat (destruct Hin as [Hin|Hin]; [discriminate Hin|]). done.
      * left. shape_mem Hc Hevs0. repeat (destruct Hc as [Hc|Hc]; [try discriminate Hc|]);
          [injection Hc as <- | done].
        split; [done|]. exists pd. split; [|done]. apply elem_of_app. right. ev_mem. tauto.
  - (* the manifest cannot be written *)
    rewrite Hm.
    assert (Hw : filter (fun e => is_write e = true) evs0 = [])
      by (apply (filter_write_nil _ _ Hevs0); done).
    split; [rewrite filter_app, Hw, !filter_cons; simpl; lia|]. split; [|split].
    + intros p t Hin. shape_mem Hin Hevs0.
      repeat (destruct Hin as [Hin|Hin]; [discriminate Hin|]). done.
    + intros pd' Hin Hne. shape_mem Hin Hevs0.
      destruct Hin as [Hin|[Hin|[Hin|Hin]]]; try discriminate Hin.
      * injection Hin as <-. split; [by rewrite Hwf|]. intros _.
        rewrite last_app_cons. reflexivity.
      * repeat (destruct Hin as [Hin|Hin]; [discriminate Hin|]). done.
    + intros c Hc. exfalso. shape_mem Hc Hevs0.
      repeat (destruct Hc as [Hc|Hc]; [discriminate Hc|]). done.
  - (* the manifest is written *)
    assert (Hw : filter (fun e => is_write e = true) evs0 = [])
      by (apply (filter_write_nil _ _ Hevs0); done).
    assert (Hwt : filter (fun e => is_write e = true) tail = [])
      by (apply (filter_write_nil _ _ Htail); done).
    assert (Hin_tail : forall e, e ∈ main' input_dir stdin ->
              e ∈ evs0 \/ e = EPrint m1 \/ e = EPrint m2 \/ e = EScan pd \/ e = EPrint m3 \/
              e = EWrite (path_join pd "requirements.txt") (requirements_text (scan' pd)) \/
              e = EPrint m4 \/ e ∈ tail \/ e = ECrash).
    { intros e Hin. destruct Hm as [Hm|Hm]; rewrite Hm in Hin;
        apply elem_of_app in Hin as [Hin|Hin]; [by left| |by left|];
        ev_mem; tauto. }
    split; [|split; [|split]].
    + destruct Hm as [-> | ->]; rewrite filter_app, Hw, !filter_cons; simpl;
        rewrite ?filter_app, Hwt; simpl; lia.
    + intros p t Hin. destruct (Hin_tail _ Hin)
        as [H|[H|[H|[H|[H|[H|[H|[H|H]]]]]]]]; try discriminate H.
      * by apply (forall_no_write _ _ _ _ Hevs0) in H.
      * injection H as -> ->. exists pd. split; [|done].
        destruct Hm as [-> | ->]; apply elem_of_app; right; ev_mem; tauto.
      * by apply (forall_no_write _ _ _ _ Htail) in H.
    + intros pd' Hin Hne. destruct (Hin_tail _ Hin)
        as [H|[H|[H|[H|[H|[H|[H|[H|H]]]]]]]]; try discriminate H.
      * by apply (not_in_forall _ _ _ Hevs0) in H.
      * injection H as <-. split; [|by rewrite Hok].
        intros _. destruct Hm as [-> | ->]; apply elem_of_app; right; ev_mem; tauto.
      * by apply (not_in_forall _ _ _ Htail) in H.
    + intros c Hc. exfalso. destruct (Hin_tail _ Hc)
        as [H|[H|[H|[H|[H|[H|[H|[H|H]]]]]]]]; try discriminate H.
      * by apply (not_in_forall _ _ _ Hevs0) in H.
      * by apply (not_in_forall _ _ _ Htail) in H.
Qed.

End MainExtra.

(* ------------------------------------------------------------------ *)
(** ** More properties of the extractor, the walker and the manifest *)

Lemma first_segment_no_dot (s : string) : has_char "." (first_segment s) = false.
Proof.
  unfold first_segment. induction s as [|a s IH]; [done|]. cbn [split_on].
  destruct (Ascii.eqb a ".") eqn:E; [done|].
  destruct (split_on "." s) as [|x r]; cbn [hd has_char] in *; rewrite E; [done|].
  exact IH.
Qed.

Lemma first_segment_idem (s : string) : first_segment (first_segment s) = first_segment s.
Proof.
  unfold first_segment at 1. rewrite (split_on_no_sep "." _ (first_segment_no_dot s)). done.
Qed.

(** Only the first dotted segment of a module name counts: an [import] of
    [a.b.c] adds what an [import] of [a] adds, for every alias and for
    the module of an absolute [from ... import]. *)
Theorem process_node_first_segment_only (M : gmap string string)
  (distribution : string -> dist_lookup) (names : list string) (x : string) (s : gset string) :
  first_segment (first_segment x) = first_segment x /\
  process_node M distribution (Import names) s
  = process_node M distribution (Import (map first_segment names)) s /\
  process_node M distribution (ImportFrom (Some x) 0) s
  = process_node M distribution (ImportFrom (Some (first_segment x)) 0) s.
Proof.
  split; [apply first_segment_idem|]. split.
  - cbn [process_node]. revert s.
    induction names as [|n names IH]; intros s; [done|].
    cbn [import_aliases map]. rewrite first_segment_idem.
    destruct (add_if_external _ _ _ s); [apply IH | done].
  - cbn [process_node Nat.eqb]. rewrite first_segment_idem. done.
Qed.

(** A dotted name whose first part [n] has no dot is classified as [n]. *)
Theorem first_segment_dotted_name (M : gmap string string) (distribution : string -> dist_lookup)
  (n t : string) (Hn : has_char "." n = false) :
  first_segment (n ++ String "." t) = n /\
  (forall s : gset string,
     process_node M distribution (Import [n ++ String "." t]) s
     = process_node M distribution (Import [n]) s).
Proof.
  assert (H : first_segment (n ++ String "." t) = n).
  { unfold first_segment. rewrite split_on_sep_app, (split_on_no_sep "." n Hn). done. }
  split; [done|]. intros s. cbn [process_node import_aliases]. rewrite H.
  unfold first_segment. rewrite (split_on_no_sep "." n Hn). done.
Qed.

Lemma skipped_root_iff (root : string) :
  skipped_root root = true <-> ".venv" ∈ split_on "/" root.
Proof.
  unfold skipped_root. rewrite existsb_exists. split.
  - intros (x & Hx & Heq). apply String.eqb_eq in Heq as ->. by apply list_elem_of_In.
  - intros Hin. exists ".venv". split; [by apply list_elem_of_In | apply String.eqb_refl].
Qed.

(** Joining a name without ["/"] keeps every component of the directory. *)
Lemma path_join_keeps_venv (root n : string) :
  has_char "/" n = false -> ".venv" ∈ split_on "/" root ->
  ".venv" ∈ split_on "/" (path_join root n).
Proof.
  intros Hslash Hin. unfold path_join.
  destruct (starts_with "/" n) eqn:Hs.
  { destruct n as [|a n]; [done|]. cbn [starts_with has_char] in Hs, Hslash.
    rewrite andb_true_r in Hs. apply Ascii.eqb_eq in Hs as <-.
    rewrite Ascii.eqb_refl in Hslash. discriminate. }
  destruct (String.eqb root "") eqn:He; simpl.
  { apply String.eqb_eq in He as ->. cbn in Hin. set_solver. }
  destruct (ends_with "/" root) eqn:Hend.
  - destruct (ends_with_spec _ _ Hend) as [r ->].
    rewrite <-str_app_assoc. change ("/" ++ n) with (String "/" n).
    change "/" with (String "/" "") in Hin.
    rewrite split_on_sep_app in Hin |- *. cbn [split_on] in Hin. set_solver.
  - change ("/" ++ n) with (String "/" n).
    rewrite split_on_sep_app. set_solver.
Qed.

Lemma walk_entry_roots_skipped (e : fs_entry) :
  entry_names_ok e = true ->
  forall top : string, skipped_root top = true ->
  forall rf, rf ∈ walk_entry top e -> skipped_root rf.1 = true.
Proof.
  induction e as [n | n cs IH] using fs_entry_rect'; intros Hok top Htop rf Hin;
    simpl in *.
  - by apply not_elem_of_nil in Hin.
  - apply andb_true_iff in Hok as [Hn Hok]. apply negb_true_iff in Hn.
    assert (Hp : skipped_root (path_join top n) = true).
    { apply skipped_root_iff, path_join_keeps_venv; [done|]. by apply skipped_root_iff. }
    apply elem_of_cons in Hin as [-> | Hin]; [done|].
    apply list_elem_of_In, in_flat_map in Hin as (e & He & Hin).
    rewrite Forall_forall in IH.
    apply (IH e) with (top := path_join top n); [by apply list_elem_of_In | | done |].
    + eapply forallb_forall in Hok; [exact Hok | exact He].
    + by apply list_elem_of_In.
Qed.

(** A project directory that itself lies below a [.venv] component is
    walked, but no file of it is scanned, and the import set is empty. *)
Theorem dot_venv_root_scans_nothing (M : gmap string string) (distribution : string -> dist_lookup)
  (read_bytes : string -> option (list Byte.byte)) (detect : list Byte.byte -> option string)
  (read_parse : string -> string -> option (list node))
  (directory : string) (cs : list fs_entry)
  (Hwf : names_ok cs = true) (Hroot : skipped_root directory = true) :
  scanned_files directory cs = [] /\
  scan_directory M distribution read_bytes detect read_parse directory cs = ∅.
Proof.
  assert (Hall : forall rf, rf ∈ os_walk directory cs -> skipped_root rf.1 = true).
  { intros rf Hin. unfold os_walk in Hin.
    apply elem_of_cons in Hin as [-> | Hin]; [done|].
    apply list_elem_of_In, in_flat_map in Hin as (e & He & Hin).
    apply (walk_entry_roots_skipped e) with (top := directory); [| done | by apply list_elem_of_In].
    unfold names_ok in Hwf. eapply forallb_forall in Hwf; [exact Hwf | exact He]. }
  assert (Hnil : scanned_files directory cs = []).
  { destruct (scanned_files directory cs) as [|p l] eqn:E; [done|].
    assert (Hp : p ∈ scanned_files directory cs) by (rewrite E; apply elem_of_cons; by left).
    apply scanned_files_elem in Hp as (root & files & f & Hrf & Hsk & _).
    specialize (Hall _ Hrf). cbn [fst] in Hall. rewrite Hall in Hsk. discriminate. }
  split; [done|]. rewrite scan_directory_eq, Hnil. done.
Qed.

(** The node loop is insensitive to the order [ast.walk] yields nodes in. *)
Theorem walk_nodes_order_irrelevant (M : gmap string string) (distribution : string -> dist_lookup)
  (nodes nodes' : list node) (Hperm : nodes ≡ₚ nodes') (s : gset string) :
  walk_nodes M distribution nodes s = walk_nodes M distribution nodes' s.
Proof.
  rewrite !walk_nodes_eq. f_equal. apply list_to_set_perm_L.
  apply omap_Permutation, Permutation_flat_map. done.
Qed.


Lemma starts_with_app (p t : string) : starts_with p (p ++ t) = true.
Proof.
  induction p as [|a p IH]; [destruct t; done|].
  rewrite str_app_cons. cbn [starts_with]. rewrite Ascii.eqb_refl, IH. done.
Qed.

Lemma ends_with_app (p s : string) : ends_with p (s ++ p) = true.
Proof. unfold ends_with. rewrite rev_app_app. apply starts_with_app. Qed.

Lemma path_join_ends_with (root f : string) :
  ends_with ".py" f = true -> ends_with ".py" (path_join root f) = true.
Proof.
  intros Hf. destruct (ends_with_spec _ _ Hf) as [t ->]. unfold path_join.
  destruct (starts_with "/" (t ++ ".py")); [done|].
  destruct (String.eqb root "" || ends_with "/" root);
    rewrite ?str_app_assoc; apply ends_with_app.
Qed.

(** Only files whose path ends in [.py] are scanned. *)
Theorem scanned_files_are_py (directory : string) (cs : list fs_entry) :
  Forall (fun p => ends_with ".py" p = true) (scanned_files directory cs).
Proof.
  apply Forall_forall. intros p Hp.
  apply scanned_files_elem in Hp as (root & files & f & _ & _ & _ & Hpy & ->).
  by apply path_join_ends_with.
Qed.

(** The manifest text is empty exactly when the import set is; so the file
    [main] writes (only for a non-empty set) is never empty. *)
Theorem requirements_text_empty_iff (X : gset string) :
  requirements_text X = "" <-> X = ∅.
Proof.
  unfold requirements_text.
  destruct (requirements_lines X) as [|x l] eqn:E.
  - split; [intros _ | done]. apply set_eq. intros y. split; [|set_solver].
    intros Hy. apply requirements_lines_elem in Hy. rewrite E in Hy.
    by apply not_elem_of_nil in Hy.
  - cbn [map]. rewrite str_concat_nil_cons. split.
    + intros H. destruct x; discriminate H.
    + intros ->. assert (E0 : requirements_lines ∅ = []) by reflexivity.
      rewrite E0 in E. discriminate.
Qed.

(* ------------------------------------------------------------------ *)
(** ** Witnesses and counterexamples on the concrete project *)

Ltac decide_by_eval := apply (bool_decide_unpack _); vm_compute; reflexivity.

Abbreviation scan_fixture :=
  (scan_directory Fixture.mapping Fixture.distribution Fixture.read_bytes
                  Fixture.detect Fixture.read_parse).

(** The hypothesis of [dot_venv_component_never_scanned] holds for the
    concrete project, and its file below
    [venv] has no [.venv] component. *)
Lemma dot_venv_component_witness :
  names_ok Fixture.tree = true /\
  ".venv" ∉ split_on "/" "/proj/venv/c.py".
Proof.
  split; [reflexivity|].
  apply (proj1 (dot_venv_component_never_scanned Fixture.mapping Fixture.distribution
                  Fixture.read_bytes Fixture.detect Fixture.read_parse
                  "/proj" Fixture.tree eq_refl)).
  decide_by_eval.
Defined.

(** C2 as stated fails: [/proj/venv/c.py] lies below a directory named
    [venv], which [find_existing_venv] takes for the project's virtual
    environment, yet the walk scans it and its import [torch] reaches the
    manifest. *)
Lemma venv_directory_is_scanned :
  find_existing_venv (fun d => String.eqb d "/proj/venv") "/proj" = Some "/proj/venv" /\
  "/proj/venv/c.py" ∈ scanned_files "/proj" Fixture.tree /\
  "venv" ∈ split_on "/" "/proj/venv/c.py" /\
  requirements_lines (scan_fixture "/proj" Fixture.tree)
  = ["numpy"; "opencv-python"; "torch"].
Proof.
  split; [vm_compute; reflexivity|].
  split; [decide_by_eval|split]; [decide_by_eval|].
  vm_compute. reflexivity.
Defined.


(** [pkg.py] imports [numpy.linalg] and [numpy]: one manifest line. *)
Lemma manifest_entries_unique_witness :
  count_occ string_dec
    (requirements_lines (scan_directory Fixture.mapping Fixture.distribution
       Fixture.read_bytes Fixture.detect Fixture.read_parse "/proj" Fixture.pkg_tree))
    "numpy" = 1.
Proof.
  apply (proj2 (proj2 (manifest_entries_unique Fixture.mapping Fixture.distribution
           Fixture.read_bytes Fixture.detect Fixture.read_parse "/proj" Fixture.pkg_tree)
           "/proj/pkg.py" "/proj/a.py" "numpy.linalg" "numpy" "numpy"
           ltac:(decide_by_eval) ltac:(decide_by_eval)
           ltac:(decide_by_eval) ltac:(decide_by_eval)
           ltac:(vm_compute; reflexivity) ltac:(vm_compute; reflexivity))).
Defined.

(** The hypotheses of C5 hold for [s.py], which imports [json], [os.path]
    and [collections.abc]. *)
Lemma stdlib_only_file_witness :
  scan_imports Fixture.mapping Fixture.distribution Fixture.read_bytes
               Fixture.detect Fixture.read_parse "/proj/s.py" = ∅.
Proof.
  apply (stdlib_only_file_contributes_nothing Fixture.mapping Fixture.distribution
           Fixture.read_bytes Fixture.detect Fixture.read_parse "/proj/s.py" []
           [Import ["json"; "os.path"]; ImportFrom (Some "collections.abc") 0]);
    [reflexivity | reflexivity |].
  apply Forall_forall. repeat constructor; decide_by_eval.
Defined.

(** The hypothesis of C7 holds for two listings of the concrete project. *)
Lemma walk_order_witness :
  fs_equiv Fixture.tree Fixture.tree_relisted /\
  requirements_text (scan_fixture "/proj" Fixture.tree)
  = requirements_text (scan_fixture "/proj" Fixture.tree_relisted).
Proof.
  assert (H : fs_equiv Fixture.tree Fixture.tree_relisted)
    by (apply fs_equiv_perm; apply perm_swap).
  split; [exact H|].
  apply (proj1 (manifest_independent_of_walk_order Fixture.mapping Fixture.distribution
                  Fixture.read_bytes Fixture.detect Fixture.read_parse
                  "/proj" _ _ H)).
Defined.

(** The hypotheses of C8 hold for [from . import x] (module [None], level 1). *)
Lemma from_import_without_module_witness :
  walk_nodes Fixture.mapping Fixture.distribution
    ([Import ["numpy"]] ++ ImportFrom None 1 :: [Import ["cv2"]]) ∅
  = walk_nodes Fixture.mapping Fixture.distribution ([Import ["numpy"]] ++ [Import ["cv2"]]) ∅.
Proof.
  apply (proj2 (from_import_without_module_skipped Fixture.mapping Fixture.distribution
                  None 1 [Import ["numpy"]] [Import ["cv2"]] ∅
                  (or_introl eq_refl) ltac:(lia))).
Defined.

(** The hypothesis of C10 holds for the line [opencv-python] of the concrete
    manifest. *)
Lemma manifest_origin_witness :
  exists (p : string) (raw : list Byte.byte) (tree : list node) (n : node) (name : string),
    p ∈ scanned_files "/proj" Fixture.tree /\
    Fixture.read_bytes p = Some raw /\
    Fixture.read_parse p (file_encoding Fixture.detect raw) = Some tree /\
    n ∈ tree /\ name ∈ node_module_names n /\
    ("opencv-python" = first_segment name \/
     Fixture.mapping !! first_segment name = Some "opencv-python").
Proof.
  apply (manifest_entries_have_origin Fixture.mapping Fixture.distribution
           Fixture.read_bytes Fixture.detect Fixture.read_parse "/proj" Fixture.tree).
  decide_by_eval.
Defined.


(* ------------------------------------------------------------------ *)
(** ** Witnesses for the further properties *)


Definition manifest_read (p : string) : option string :=
  if String.eqb p "/proj/requirements.txt"
  then Some (requirements_text (list_to_set ["torch"; "numpy"]))
  else None.




(** [import cv2.data] is classified as [cv2]. *)
Lemma first_segment_dotted_witness :
  first_segment ("cv2" ++ String "." "data") = "cv2".
Proof.
  apply (proj1 (first_segment_dotted_name Fixture.mapping Fixture.distribution "cv2" "data"
                  ltac:(vm_compute; reflexivity))).
Defined.

(** The concrete project scanned from [/proj/.venv] gives nothing. *)
Lemma dot_venv_root_witness :
  scan_fixture "/proj/.venv" Fixture.tree = ∅.
Proof.
  apply (proj2 (dot_venv_root_scans_nothing Fixture.mapping Fixture.distribution
                  Fixture.read_bytes Fixture.detect Fixture.read_parse "/proj/.venv"
                  Fixture.tree ltac:(vm_compute; reflexivity) ltac:(vm_compute; reflexivity))).
Defined.

(** Two nodes of a tree, in either order. *)
Lemma walk_nodes_order_witness :
  walk_nodes Fixture.mapping Fixture.distribution
    [Import ["numpy"]; ImportFrom (Some "cv2.data") 0] ∅
  = walk_nodes Fixture.mapping Fixture.distribution
      [ImportFrom (Some "cv2.data") 0; Import ["numpy"]] ∅.
Proof.
  apply (walk_nodes_order_irrelevant Fixture.mapping Fixture.distribution).
  apply perm_swap.
Defined.
